(** * wikistats: user activity statistics for a wiki

    A shallow embedding of [wikistats.py] (the two aggregators [alltime]
    and [peruser], and the dispatch in [main]) together with the
    properties of its specification.

    The wiki client (pywikibot) is an external collaborator: a site is a
    record of the listings the script reads from it.  Python's builtins
    that the script relies on ([int], [str], [str.split], [str.zfill],
    [sorted], [re.match], [datetime.strftime], [datetime.isocalendar]) are
    modelled next to the code that uses them. *)

From Stdlib Require Import ZArith NArith Lia Bool List Ascii String.
From Stdlib Require DecimalString DecimalZ DecimalPos.
From stdpp Require Import base option list gmap strings.

Local Open Scope Z_scope.

(** ** Python values used by the script *)

Module Py.

(** Strings are byte strings; the models of [int], [str.strip] and
    [str.split] below are those of Python on ASCII text, which is what
    the command line and [strftime] supply here. *)

(** Exceptions the script can raise from its own expressions. *)
Inductive exn : Type :=
| ValueError
| IndexError.

(** Result of evaluating an expression that may raise. *)
Inductive res (A : Type) : Type :=
| Val (a : A)
| Raise (e : exn).
Arguments Val {A} a.
Arguments Raise {A} e.

#[global] Instance res_ret : MRet res := fun A a => Val a.
#[global] Instance res_bind : MBind res := fun A B k r =>
  match r with
  | Val a => k a
  | Raise e => Raise e
  end.

(** [str.isspace] on the ASCII range: TAB..CR, FS..US and SPACE. *)
Definition isspace (c : ascii) : bool :=
  let n := Z.of_nat (nat_of_ascii c) in
  ((9 <=? n) && (n <=? 13)) || ((28 <=? n) && (n <=? 32)).

Fixpoint lstrip (s : string) : string :=
  match s with
  | EmptyString => EmptyString
  | String c s' => if isspace c then lstrip s' else s
  end.

Definition rstrip (s : string) : string :=
  String.rev (lstrip (String.rev s)).

Definition strip (s : string) : string := rstrip (lstrip s).

Definition digit_val (c : ascii) : option Z :=
  let n := Z.of_nat (nat_of_ascii c) in
  if (48 <=? n) && (n <=? 57) then Some (n - 48) else None.

(** Default of [sys.int_max_str_digits]. *)
Definition int_max_str_digits : nat := 4300.

(** The digit part of a base-10 literal: decimal digits, with single
    underscores allowed between two digits.  [seen] counts the digits,
    [after_digit] tells whether the previous character was a digit. *)
Fixpoint int_digits (s : string) (acc : Z) (seen : nat) (after_digit : bool)
  : option (Z * nat) :=
  match s with
  | EmptyString => if after_digit then Some (acc, seen) else None
  | String c s' =>
      match digit_val c with
      | Some d => int_digits s' (10 * acc + d) (S seen) true
      | None =>
          if Ascii.eqb c "_"%char && after_digit
          then int_digits s' acc seen false
          else None
      end
  end.

Definition int_unsigned (s : string) : res Z :=
  match int_digits s 0 0%nat false with
  | Some (v, seen) =>
      if Nat.leb seen int_max_str_digits then Val v else Raise ValueError
  | None => Raise ValueError
  end.

(** [int(s)] for a string argument, base 10: surrounding whitespace is
    stripped, one sign is accepted, anything else raises [ValueError]. *)
Definition int (s : string) : res Z :=
  match strip s with
  | String c s' =>
      if Ascii.eqb c "-"%char then v ← int_unsigned s'; Val (- v)
      else if Ascii.eqb c "+"%char then int_unsigned s'
      else int_unsigned (String c s')
  | EmptyString => Raise ValueError
  end.

(** [str(n)] for an integer. *)
Definition str (n : Z) : string :=
  DecimalString.NilZero.string_of_int (Z.to_int n).

Fixpoint zeros (n : nat) : string :=
  match n with
  | O => EmptyString
  | S n' => String "0"%char (zeros n')
  end.

(** [s.zfill(width)]: pad with zeros on the left, after a leading sign. *)
Definition zfill (width : nat) (s : string) : string :=
  let n := String.length s in
  if Nat.leb width n then s
  else
    match s with
    | String c s' =>
        if Ascii.eqb c "+"%char || Ascii.eqb c "-"%char
        then String c (zeros (width - n) +:+ s')
        else zeros (width - n) +:+ s
    | EmptyString => zeros width
    end.

(** [s.split(sep)] for a one-character separator: the pieces between
    the occurrences of [sep]; never the empty list. *)
Fixpoint split (sep : ascii) (s : string) : list string :=
  match s with
  | EmptyString => [EmptyString]
  | String c s' =>
      if Ascii.eqb c sep then EmptyString :: split sep s'
      else
        match split sep s' with
        | piece :: pieces => String c piece :: pieces
        | [] => [String c EmptyString]
        end
  end.

(** [l[i]]: indexing a list raises [IndexError] out of range. *)
Definition index {A} (l : list A) (i : nat) : res A :=
  match nth_error l i with
  | Some a => Val a
  | None => Raise IndexError
  end.

(** Truth value of a string: empty strings are false. *)
Definition truthy_str (s : string) : bool :=
  match s with
  | EmptyString => false
  | String _ _ => true
  end.

End Py.

Import Py.

(** ** Timestamps: [datetime.strftime] and [datetime.isocalendar] *)

Module Datetime.

(** The date part of a contribution's timestamp; the time of day plays
    no role in the script. *)
Record Timestamp : Type := { year : Z; month : Z; day : Z }.

Definition is_leap (y : Z) : bool :=
  (y mod 4 =? 0) && (negb (y mod 100 =? 0) || (y mod 400 =? 0)).

Definition days_before_year (y : Z) : Z :=
  let y := y - 1 in y * 365 + y / 4 - y / 100 + y / 400.

Definition days_before_month (y m : Z) : Z :=
  nth (Z.to_nat m) [0; 0; 31; 59; 90; 120; 151; 181; 212; 243; 273; 304; 334] 0
  + (if (2 <? m) && is_leap y then 1 else 0).

Definition ymd2ord (y m d : Z) : Z :=
  days_before_year y + days_before_month y m + d.

(** Ordinal of the Monday that starts ISO week 1 of year [y]. *)
Definition isoweek1monday (y : Z) : Z :=
  let firstday := ymd2ord y 1 1 in
  let firstweekday := (firstday + 6) mod 7 in
  let week1monday := firstday - firstweekday in
  if 3 <? firstweekday then week1monday + 7 else week1monday.

(** [isocalendar()]: (ISO year, ISO week, ISO weekday). *)
Definition isocalendar (t : Timestamp) : Z * Z * Z :=
  let y := year t in
  let today := ymd2ord y (month t) (day t) in
  let week := (today - isoweek1monday y) / 7 in
  let wday := (today - isoweek1monday y) mod 7 in
  if week <? 0 then
    let w1 := isoweek1monday (y - 1) in
    (y - 1, (today - w1) / 7 + 1, (today - w1) mod 7 + 1)
  else if (52 <=? week) && (isoweek1monday (y + 1) <=? today) then
    (y + 1, 1, wday + 1)
  else (y, week + 1, wday + 1).

Definition iso_week (t : Timestamp) : Z := snd (fst (isocalendar t)).

(** [strftime('%Y')]: the calendar year in decimal (four digits for the
    years 1000..9999, where every platform agrees). *)
Definition strftime_Y (t : Timestamp) : string := str (year t).

(** [strftime('%m')]: the month as two digits. *)
Definition strftime_m (t : Timestamp) : string := zfill 2 (str (month t)).

End Datetime.

Import Datetime.

(** ** Regular expressions: the fragment [re.match] needs here *)

Module Re.

(** Page text is a [str]: a sequence of Unicode code points. *)
Definition text : Type := list N.

(** Code points of an ASCII literal. *)
Fixpoint codes (s : string) : text :=
  match s with
  | EmptyString => []
  | String c s' => N_of_ascii c :: codes s'
  end.

Inductive regex : Type :=
| Chr (p : N -> bool)            (* one character of a class *)
| Star (p : N -> bool)           (* any number of characters of a class *)
| Seq (r1 r2 : regex)
| Alt (r1 r2 : regex)
| Eps.

Fixpoint star_rests (p : N -> bool) (t : text) : list text :=
  t :: match t with
       | c :: t' => if p c then star_rests p t' else []
       | [] => []
       end.

(** Every way of matching [r] at the start of [t], as the text that is
    left after the match. *)
Fixpoint rests (r : regex) (t : text) : list text :=
  match r with
  | Chr p => match t with
             | c :: t' => if p c then [t'] else []
             | [] => []
             end
  | Star p => star_rests p t
  | Seq r1 r2 => flat_map (rests r2) (rests r1 t)
  | Alt r1 r2 => rests r1 t ++ rests r2 t
  | Eps => [t]
  end.

(** Truth value of [re.match(r, t)]: some prefix of [t] matches. *)
Definition re_match (r : regex) (t : text) : bool :=
  match rests r t with
  | [] => false
  | _ :: _ => true
  end.

Local Open Scope N_scope.

(** [\s] on [str]: the characters for which [str.isspace] holds. *)
Definition space (c : N) : bool :=
  ((9 <=? c) && (c <=? 13)) || ((28 <=? c) && (c <=? 32))
  || (c =? 0x85) || (c =? 0xA0) || (c =? 0x1680)
  || ((0x2000 <=? c) && (c <=? 0x200A))
  || (c =? 0x2028) || (c =? 0x2029) || (c =? 0x202F) || (c =? 0x205F)
  || (c =? 0x3000).

(** Upper-case partner of a lower-case ASCII or basic Cyrillic letter. *)
Definition upper (p : N) : N :=
  if ((0x61 <=? p) && (p <=? 0x7A)) || ((0x430 <=? p) && (p <=? 0x44F))
  then p - 32 else p.

(** Further characters that [re.I] lets a lower-case letter match. *)
Definition equivalents (p : N) : list N :=
  if p =? 0x69 then [0x130; 0x131]          (* i: dotted I, dotless i *)
  else if p =? 0x432 then [0x1C80]          (* Cyrillic ve: rounded ve *)
  else [].

(** A literal of the pattern under [re.I]. *)
Definition lit_i (p : N) : regex :=
  Chr (fun c => (c =? p) || (c =? upper p) || existsb (N.eqb c) (equivalents p)).

Fixpoint word_i (w : text) : regex :=
  match w with
  | [] => Eps
  | p :: w' => Seq (lit_i p) (word_i w')
  end.

Definition plus (p : N -> bool) : regex := Seq (Chr p) (Star p).

(** Cyrillic "vizh", the Bulgarian redirect keyword. *)
Definition vizh : text := [0x432; 0x438; 0x436].

(** [r'^\s*#(vizh|redirect)\s+\[\[' ] with [flags=re.I]. *)
Definition redirect_re : regex :=
  Seq (Star space)
    (Seq (word_i (codes "#"))
       (Seq (Alt (word_i vizh) (word_i (codes "redirect")))
          (Seq (plus space) (word_i (codes "[["))))).

End Re.

Import Re.

(** ** The wiki client, as the script sees it *)

(** A page: [title()], [oldest_revision['revid']] and [getOldVersion]. *)
Record Page : Type := {
  title : string;
  oldest_revid : Z;
  getOldVersion : Z -> text
}.

(** A contribution tuple: [contrib[0]], [contrib[1]], [contrib[2]]. *)
Record Contrib : Type := {
  page : Page;
  revid : Z;
  timestamp : Timestamp
}.

(** An entry of [allusers()]: [user['name']], [user['editcount']]. *)
Record UserInfo : Type := {
  name : string;
  editcount : Z
}.

(** A bound of the time window as it is handed to the client: [None],
    a timestamp string of the command line, or a [datetime]. *)
Inductive Bound : Type :=
| NoBound
| Text (s : string)
| Instant (t : Timestamp).

(** What [contributions(...)] is asked for. *)
Record Query : Type := {
  q_user : string;
  q_total : N;
  q_end : Bound;
  q_start : Bound;
  q_namespaces : option (list string)
}.

Record Site : Type := {
  allusers : list UserInfo;
  contributions : Query -> list Contrib
}.

(** Hard-coded defaults. *)
Definition ALLTIME_FROM_DATE : string := "2017-07-01T00:00:00Z".
Definition PERUSER_FROM_DATE : string := "2008-12-01T00:00:00Z".
Definition MAXCONTRIB : N := 10000.

(** [excludes and title in excludes]: [excludes] is [None] or a list. *)
Definition excluded (excludes : option (list string)) (t : string) : bool :=
  match excludes with
  | None => false
  | Some l =>
      match l with
      | [] => false
      | _ :: _ => existsb (String.eqb t) l
      end
  end.

(** ** The all-time aggregator *)

Module Alltime.

(** [active_users]: a dict, which keeps its keys in insertion order. *)
Definition Counter : Type := list (string * nat).

(** [try: d[u] += 1 / except KeyError: d[u] = 1]. *)
Fixpoint incr (u : string) (d : Counter) : Counter :=
  match d with
  | [] => [(u, 1%nat)]
  | (k, c) :: d' =>
      if String.eqb k u then (k, S c) :: d' else (k, c) :: incr u d'
  end.

Definition alltime_active_users (wiki : Site) : list string :=
  map name (List.filter (fun u => 0 <? editcount u) (allusers wiki)).

Definition user_contributions (wiki : Site) (asof since : Bound) (user : string)
  : list Contrib :=
  contributions wiki
    {| q_user := user; q_total := MAXCONTRIB; q_end := since;
       q_start := asof; q_namespaces := None |}.

(** The inner loop, over one user's contributions. *)
Fixpoint count_contribs (excludes : option (list string)) (user : string)
    (cs : list Contrib) (d : Counter) : Counter :=
  match cs with
  | [] => d
  | contrib :: cs' =>
      if excluded excludes (title (page contrib))
      then count_contribs excludes user cs' d
      else count_contribs excludes user cs' (incr user d)
  end.

(** The outer loop, over the users. *)
Fixpoint count_users (wiki : Site) (asof since : Bound)
    (excludes : option (list string)) (users : list string) (d : Counter)
  : Counter :=
  match users with
  | [] => d
  | user :: users' =>
      count_users wiki asof since excludes users'
        (count_contribs excludes user
           (user_contributions wiki asof since user) d)
  end.

Definition active_users (wiki : Site) (asof since : Bound)
    (excludes : option (list string)) : Counter :=
  count_users wiki asof since excludes (alltime_active_users wiki) [].

(** [sorted(items, key=lambda x: x[1], reverse=True)]: a stable sort,
    so items with equal counts keep their order. *)
Fixpoint insert_desc (x : string * nat) (l : list (string * nat))
  : list (string * nat) :=
  match l with
  | [] => [x]
  | y :: l' =>
      if Nat.ltb (snd x) (snd y) then y :: insert_desc x l' else x :: l
  end.

Definition sorted_desc (l : list (string * nat)) : list (string * nat) :=
  foldr insert_desc [] l.

(** [alltime]: the lines it prints, each as (count, user). *)
Definition alltime (wiki : Site) (asof since : Bound)
    (excludes : option (list string)) : list (nat * string) :=
  map (fun '(u, c) => (c, u))
    (sorted_desc (active_users wiki asof since excludes)).

End Alltime.

Import Alltime.

(** ** The per-user aggregator *)

Module Peruser.

(** [stats]: three dicts from bucket key to count. *)
Record Stats : Type := {
  years : gmap string nat;
  months : gmap string nat;
  weeks : gmap string nat
}.

Definition empty_stats : Stats :=
  {| years := ∅; months := ∅; weeks := ∅ |}.

(** [try: d[k] += 1 / except KeyError: d[k] = 1]. *)
Definition bump (k : string) (d : gmap string nat) : gmap string nat :=
  match d !! k with
  | Some n => <[k := S n]> d
  | None => <[k := 1%nat]> d
  end.

(** A bucket that was never touched counts as zero. *)
Definition count (d : gmap string nat) (k : string) : nat :=
  default 0%nat (d !! k).

Record Options : Type := {
  months_since : option string;
  weeks_since : option string;
  created_only : bool;
  include_redirects : bool;
  excludes : option (list string)
}.

(** The tests of the three filters at the head of the loop body. *)
Definition is_excluded (o : Options) (c : Contrib) : bool :=
  excluded (excludes o) (title (page c)).

Definition not_created (o : Options) (c : Contrib) : bool :=
  created_only o && negb (revid c =? oldest_revid (page c)).

Definition is_redirect (o : Options) (c : Contrib) : bool :=
  negb (include_redirects o)
  && re_match redirect_re (getOldVersion (page c) (oldest_revid (page c))).

Definition year_of (c : Contrib) : string := strftime_Y (timestamp c).
Definition month_of (c : Contrib) : string := strftime_m (timestamp c).
Definition week_of (c : Contrib) : string :=
  zfill 2 (str (iso_week (timestamp c))).

Definition month_key (c : Contrib) : string := year_of c +:+ " " +:+ month_of c.
Definition week_key (c : Contrib) : string := year_of c +:+ " " +:+ week_of c.

(** [int(year) < int(since.split('-')[0])]. *)
Definition year_before (since year : string) : res bool :=
  y ← int year;
  p ← index (split "-" since) 0;
  c ← int p;
  Val (y <? c).

(** The two tests of a cutoff, in the order of the code; [Val true]
    stands for [continue].  [part] is the month or the week. *)
Definition gate (since : option string) (year part : string) : res bool :=
  match since with
  | None => Val false
  | Some since =>
      if truthy_str since then
        b1 ← year_before since year;
        if b1 : bool then Val true
        else
          b2 ← year_before since year;
          if b2 : bool then
            m ← int part;
            q ← index (split "-" since) 1;
            c ← int q;
            Val (m =? c)
          else Val false
      else Val false
  end.

(** How one pass through the loop body ends. *)
Inductive signal : Type :=
| Next                (* fell through, or [continue] *)
| Raised (e : exn).

(** The loop body, on the dicts as they are when it starts. *)
Definition step (o : Options) (s : Stats) (c : Contrib) : Stats * signal :=
  if is_excluded o c then (s, Next)
  else if not_created o c then (s, Next)
  else if is_redirect o c then (s, Next)
  else
    let s1 := {| years := bump (year_of c) (years s);
                 months := months s; weeks := weeks s |} in
    match gate (months_since o) (year_of c) (month_of c) with
    | Raise e => (s1, Raised e)
    | Val true => (s1, Next)
    | Val false =>
        let s2 := {| years := years s1;
                     months := bump (month_key c) (months s1);
                     weeks := weeks s1 |} in
        match gate (weeks_since o) (year_of c) (week_of c) with
        | Raise e => (s2, Raised e)
        | Val true => (s2, Next)
        | Val false =>
            ({| years := years s2; months := months s2;
                weeks := bump (week_key c) (weeks s2) |}, Next)
        end
    end.

(** The loop: an exception ends it and leaves the dicts as they are. *)
Fixpoint loop (o : Options) (s : Stats) (cs : list Contrib)
  : Stats * signal :=
  match cs with
  | [] => (s, Next)
  | c :: cs' =>
      match step o s c with
      | (s', Next) => loop o s' cs'
      | (s', Raised e) => (s', Raised e)
      end
  end.

(** A contribution passes the filters when none of the three tests
    sends the loop to the next one. *)
Definition passes (o : Options) (c : Contrib) : bool :=
  negb (is_excluded o c) && negb (not_created o c) && negb (is_redirect o c).

Definition user_contributions (wiki : Site) (username : string)
    (asof since : Bound) (namespaces : option (list string)) : list Contrib :=
  contributions wiki
    {| q_user := username; q_total := MAXCONTRIB; q_end := since;
       q_start := asof; q_namespaces := namespaces |}.

Definition run (wiki : Site) (username : string) (asof since : Bound)
    (namespaces : option (list string)) (o : Options) : Stats * signal :=
  loop o empty_stats (user_contributions wiki username asof since namespaces).

(** [peruser]: the stats it prints, unless the loop raised. *)
Definition peruser (wiki : Site) (username : string) (asof since : Bound)
    (namespaces : option (list string)) (o : Options) : res Stats :=
  match run wiki username asof since namespaces o with
  | (s, Next) => Val s
  | (_, Raised e) => Raise e
  end.

End Peruser.

Import Peruser.

(** ** Command line and dispatch *)

Module Main.

(** The namespace [parse_args] returns. *)
Record Args : Type := {
  wiki : string;
  totals : bool;
  user : option string;
  asof : option string;
  since : option string;
  month_stats_since : option string;
  week_stats_since : option string;
  namespace : option (list string);
  created_only : bool;
  include_redirects : bool;
  exclude_pages : option (list string)
}.

Inductive Report : Type :=
| Totals (lines : list (nat * string))
| UserStats (s : Stats).

(** An option of the command line that was not given is [None]. *)
Definition bound_of (a : option string) : Bound :=
  match a with
  | None => NoBound
  | Some s => Text s
  end.

(** [main], after [parse_args]; [pwb_Site] resolves language and
    family to a site.  A user report without [--user] is not reachable:
    the parser requires one of the two modes. *)
Definition main (pwb_Site : string -> string -> Site) (args : Args)
  : res Report :=
  lang ← index (split "." (wiki args)) 0;
  fam ← index (split "." (wiki args)) 1;
  let site := pwb_Site lang fam in
  if totals args then
    Val (Totals (alltime site (bound_of (asof args)) (bound_of (since args))
                   (exclude_pages args)))
  else
    s ← peruser site (default EmptyString (user args))
          (bound_of (asof args)) (bound_of (since args)) (namespace args)
          {| months_since := month_stats_since args;
             weeks_since := week_stats_since args;
             Peruser.created_only := created_only args;
             Peruser.include_redirects := include_redirects args;
             excludes := exclude_pages args |};
    Val (UserStats s).

End Main.

Import Main.

(** ** Order of appearance in a list *)

Module Order.

Definition mem (a : string) (l : list string) : bool :=
  existsb (String.eqb a) l.

(** [before l a b]: both occur in [l], and the first occurrence of [a]
    comes before the first occurrence of [b]. *)
Fixpoint before (l : list string) (a b : string) : bool :=
  match l with
  | [] => false
  | x :: l' =>
      if String.eqb x a then negb (String.eqb x b) && mem b l'
      else if String.eqb x b then false
      else before l' a b
  end.

(** [prec l x y]: some occurrence of [x] in [l] is followed by one of [y]. *)
Fixpoint prec {A} (l : list A) (x y : A) : Prop :=
  match l with
  | [] => False
  | z :: l' => (z = x /\ In y l') \/ prec l' x y
  end.

End Order.

Import Order.

(** ** The counter of the all-time aggregator *)

Module Tally.

(** [d.get(a, 0)]. *)
Fixpoint get (d : Counter) (a : string) : nat :=
  match d with
  | [] => 0%nat
  | (k, c) :: d' => if String.eqb k a then c else get d' a
  end.

Definition keys (d : Counter) : list string := map fst d.

(** How many contributions of a listing are not excluded. *)
Definition counted_in (excludes : option (list string)) (cs : list Contrib)
  : nat :=
  length (List.filter (fun c => negb (excluded excludes (title (page c)))) cs).

Definition tally (wiki : Site) (asof since : Bound)
    (excludes : option (list string)) (u : string) : nat :=
  counted_in excludes (Alltime.user_contributions wiki asof since u).

(** The users in the order in which their counter is incremented. *)
Definition events (wiki : Site) (asof since : Bound)
    (excludes : option (list string)) (users : list string) : list string :=
  flat_map (fun u => repeat u (tally wiki asof since excludes u)) users.

Definition counted_among (wiki : Site) (asof since : Bound)
    (excludes : option (list string)) (users : list string) (a : string) : nat :=
  list_sum (map (fun u => if String.eqb u a
                          then tally wiki asof since excludes u else 0%nat)
                users).

(** The counted contributions of user [a] in a run: those of its
    listing that are not excluded, once for every time the user list
    names [a]. *)
Definition counted (wiki : Site) (asof since : Bound)
    (excludes : option (list string)) (a : string) : nat :=
  counted_among wiki asof since excludes (alltime_active_users wiki) a.

(** Counts never increase along the list. *)
Fixpoint descending (l : list (string * nat)) : Prop :=
  match l with
  | [] => True
  | y :: l' => Forall (fun z => (snd z <= snd y)%nat) l' /\ descending l'
  end.

(** A counter is well formed: no key twice, no count of zero. *)
Definition wf (d : Counter) : Prop :=
  List.NoDup (keys d) /\ Forall (fun p => (0 < snd p)%nat) d.

(** The keys of the counter follow the order of the first increments. *)
Definition tracks (d : Counter) (ev : list string) : Prop :=
  (forall a, mem a (keys d) = mem a ev)
  /\ (forall a b, before (keys d) a b = before ev a b).

End Tally.

Import Tally.

(** ** The redirect marker *)

Module Marker.

Local Open Scope N_scope.

(** Lower case of the capital letters A..Z and of the Cyrillic capitals. *)
Definition fold_case (c : N) : N :=
  if ((0x41 <=? c) && (c <=? 0x5A)) || ((0x410 <=? c) && (c <=? 0x42F))
  then c + 32 else c.

Definition redirect_marker : text := codes "#redirect [[".

(** The marker with the Bulgarian keyword. *)
Definition vizh_marker : text := codes "#" ++ vizh ++ codes " [[".

(** The text begins, after optional white space and without regard to
    case, with one of the two markers. *)
Definition begins_with_marker (t : text) : Prop :=
  exists ws m rest,
    t = ws ++ m ++ rest
    /\ Forall (fun c => space c = true) ws
    /\ (map fold_case m = redirect_marker \/ map fold_case m = vizh_marker).

End Marker.

Import Marker.

(** ** Cutoffs *)

Module Cutoff.

Definition all_digits (s : string) : bool :=
  forallb (fun c => match digit_val c with Some _ => true | None => false end)
          (list_ascii_of_string s).

(** The shape "YYYY-MM" / "YYYY-WW": four digits, a dash, two digits. *)
Definition well_shaped (s : string) : bool :=
  match split "-" s with
  | [y; p] =>
      Nat.eqb (String.length y) 4 && all_digits y
      && Nat.eqb (String.length p) 2 && all_digits p
  | _ => false
  end.

(** Year [y] and month (or week) [p] come before the cutoff [cy]-[cp]. *)
Definition earlier (y p cy cp : Z) : bool :=
  (y <? cy) || ((y =? cy) && (p <? cp)).

(** The text of a cutoff before its first dash. *)
Definition year_part (since : string) : string :=
  hd EmptyString (split "-" since).



End Cutoff.

Import Cutoff.

(** ** Sample data *)

Module Sample.

Definition article (t body : string) : Page :=
  {| title := t; oldest_revid := 100; getOldVersion := fun _ => codes body |}.

(** An edit that created the page [p]. *)
Definition creation (p : Page) (y m d : Z) : Contrib :=
  {| page := p; revid := oldest_revid p;
     timestamp := {| year := y; month := m; day := d |} |}.

(** A later edit to the page [p]. *)
Definition edit (p : Page) (y m d : Z) : Contrib :=
  {| page := p; revid := oldest_revid p + 1;
     timestamp := {| year := y; month := m; day := d |} |}.

Definition plain : Page := article "Sofia" "Sofia is the capital of Bulgaria.".
Definition sandbox : Page := article "Sandbox" "Scratch space.".
Definition redirect : Page := article "Sredets" "#REDIRECT [[Sofia]]".

Definition defaults : Options :=
  {| months_since := None; weeks_since := None; Peruser.created_only := false;
     Peruser.include_redirects := false; excludes := None |}.

Definition with_months (since : string) : Options :=
  {| months_since := Some since; weeks_since := None;
     Peruser.created_only := false; Peruser.include_redirects := false;
     excludes := None |}.

Definition with_weeks (since : string) : Options :=
  {| months_since := None; weeks_since := Some since;
     Peruser.created_only := false; Peruser.include_redirects := false;
     excludes := None |}.

Definition excluding (l : list string) : Options :=
  {| months_since := None; weeks_since := None;
     Peruser.created_only := false; Peruser.include_redirects := false;
     excludes := Some l |}.

Definition creations_only : Options :=
  {| months_since := None; weeks_since := None;
     Peruser.created_only := true; Peruser.include_redirects := false;
     excludes := None |}.

Definition redirects_too : Options :=
  {| months_since := None; weeks_since := None;
     Peruser.created_only := false; Peruser.include_redirects := true;
     excludes := None |}.

(** A site with a fixed list of users, each with a fixed listing. *)
Definition site_of (users : list (string * list Contrib)) : Site :=
  {| allusers := map (fun uc => {| name := fst uc; editcount := 1 |}) users;
     contributions := fun q =>
       match List.find (fun uc => String.eqb (fst uc) (q_user q)) users with
       | Some uc => snd uc
       | None => []
       end |}.

(** Carol is listed first, then Alice and Bob. *)
Definition club : Site :=
  site_of [("Carol", repeat (edit plain 2020 1 1) 2);
           ("Alice", repeat (edit plain 2020 1 1) 5);
           ("Bob", repeat (edit plain 2020 1 1) 5)].

(** A wiki with one user and one old edit, which honours the lower
    bound of a query: timestamps in ISO form compare as strings. *)
Definition iso_text (t : Timestamp) : string :=
  strftime_Y t +:+ "-" +:+ strftime_m t +:+ "-" +:+ zfill 2 (str (day t))
  +:+ "T00:00:00Z".

Definition archive : Site :=
  {| allusers := [{| name := "Alice"; editcount := 7 |}];
     contributions := fun q =>
       let all := [edit plain 2005 3 1] in
       match q_end q with
       | NoBound => all
       | Text s => List.filter (fun c => String.leb s (iso_text (timestamp c))) all
       | Instant t =>
           List.filter (fun c => String.leb (iso_text t) (iso_text (timestamp c))) all
       end |}.

Definition totals_args : Args :=
  {| wiki := "bg.wikipedia"; totals := true; user := None; asof := None;
     since := None; month_stats_since := None; week_stats_since := None;
     namespace := None; Main.created_only := false;
     Main.include_redirects := false; exclude_pages := None |}.

Definition user_args : Args :=
  {| wiki := "bg.wikipedia"; totals := false; user := Some "Alice";
     asof := None; since := None; month_stats_since := None;
     week_stats_since := None; namespace := None; Main.created_only := false;
     Main.include_redirects := false; exclude_pages := None |}.

End Sample.

Import Sample.

(** ** Further notions used by the properties of the code *)

Module Digits.




End Digits.

Import Digits.

Module Buckets.

(** The sum of the counts of a dict. *)
Definition total (d : gmap string nat) : nat :=
  map_fold (fun _ v acc => (v + acc)%nat) 0%nat d.

(** A cutoff lets a contribution through. *)
Definition open (since : option string) (year part : string) : bool :=
  match gate since year part with
  | Val false => true
  | _ => false
  end.

Definition month_open (o : Options) (c : Contrib) : bool :=
  open (months_since o) (year_of c) (month_of c).

Definition week_open (o : Options) (c : Contrib) : bool :=
  open (weeks_since o) (year_of c) (week_of c).


(** The options with other cutoffs. *)
Definition with_cutoffs (o : Options) (m w : option string) : Options :=
  {| months_since := m; weeks_since := w;
     Peruser.created_only := Peruser.created_only o;
     Peruser.include_redirects := Peruser.include_redirects o;
     excludes := excludes o |}.

(** The options with another exclusion list. *)
Definition with_excludes (o : Options) (x : option (list string)) : Options :=
  {| months_since := months_since o; weeks_since := weeks_since o;
     Peruser.created_only := Peruser.created_only o;
     Peruser.include_redirects := Peruser.include_redirects o;
     excludes := x |}.

(** Which buckets a contribution is counted in, as the contribution and
    the options alone decide it. *)
Definition in_years (o : Options) (c : Contrib) : bool := passes o c.

Definition in_months (o : Options) (c : Contrib) : bool :=
  passes o c && month_open o c.

Definition in_weeks (o : Options) (c : Contrib) : bool :=
  passes o c && month_open o c && week_open o c.

Definition bump_if (b : bool) (k : string) (d : gmap string nat)
  : gmap string nat :=
  if b then bump k d else d.

(** What a pass through the loop body does to the dicts. *)
Definition effect (o : Options) (c : Contrib) (s : Stats) : Stats :=
  {| years := bump_if (in_years o c) (year_of c) (years s);
     months := bump_if (in_months o c) (month_key c) (months s);
     weeks := bump_if (in_weeks o c) (week_key c) (weeks s) |}.

(** How a pass through the loop body ends. *)
Definition ending (o : Options) (c : Contrib) : signal :=
  if passes o c then
    match gate (months_since o) (year_of c) (month_of c) with
    | Raise e => Raised e
    | Val true => Next
    | Val false =>
        match gate (weeks_since o) (year_of c) (week_of c) with
        | Raise e => Raised e
        | Val _ => Next
        end
    end
  else Next.

End Buckets.

Import Buckets.

Module Table.

(** The sum of the counts of a counter. *)
Definition weight (d : Counter) : nat := list_sum (map snd d).

(** The titles of an exclusion list; [None] has none. *)
Definition members (x : option (list string)) : list string :=
  match x with
  | None => []
  | Some l => l
  end.

(** The character occurs in the string. *)
Fixpoint occurs (sep : ascii) (s : string) : bool :=
  match s with
  | EmptyString => false
  | String c s' => Ascii.eqb c sep || occurs sep s'
  end.

(** A character that a lower-case letter of the pattern accepts under
    [re.I]. *)
Definition accepts (p c : N) : bool :=
  ((c =? p) || (c =? upper p) || existsb (N.eqb c) (equivalents p))%N.

(** The text spells the word, letter by letter, under [re.I]. *)
Definition spells (w m : text) : Prop :=
  Forall2 (fun p c => accepts p c = true) w m.

(** [print(c, u)]: the count, a space, the user name. *)
Definition printed_line (p : nat * string) : string :=
  str (Z.of_nat (fst p)) +:+ " " +:+ snd p.

End Table.

Import Table.

Module Calendar.

Definition days_in_month (y m : Z) : Z :=
  if (m =? 2) && is_leap y then 29
  else nth (Z.to_nat m) [0; 31; 28; 31; 30; 31; 30; 31; 31; 30; 31; 30; 31] 0.

(** A date that a [datetime] can hold. *)
Definition valid_date (t : Timestamp) : Prop :=
  1 <= year t <= 9999 /\ 1 <= month t <= 12
  /\ 1 <= day t <= days_in_month (year t) (month t).

End Calendar.

Import Calendar.

Module Cases.

(** A command line that names the wiki with a trailing domain. *)
Definition org_args : Args :=
  {| wiki := "bg.wikipedia.org"; totals := true; user := None; asof := None;
     Main.since := None; month_stats_since := None; week_stats_since := None;
     namespace := None; Main.created_only := false;
     Main.include_redirects := false; exclude_pages := None |}.

(** A command line whose wiki argument has no dot. *)
Definition dotless_args : Args :=
  {| wiki := "bgwikipedia"; totals := true; user := None; asof := None;
     Main.since := None; month_stats_since := None; week_stats_since := None;
     namespace := None; Main.created_only := false;
     Main.include_redirects := false; exclude_pages := None |}.

(** Only the Bulgarian Wikipedia has content. *)
Definition resolver (lang fam : string) : Site :=
  if String.eqb lang "bg" && String.eqb fam "wikipedia"
  then archive else site_of [].

(** A redirect written without a space before the brackets. *)
Definition tight_redirect : Page := article "Sredets" "#REDIRECT[[Sofia]]".

End Cases.

Import Cases.

(** ** Properties of the per-user aggregator *)

Section PeruserFacts.

Implicit Types (o : Options) (s : Stats) (c : Contrib) (d : gmap string nat).

Lemma count_bump_same d k : count (bump k d) k = S (count d k).
Proof.
  unfold count, bump. destruct (d !! k) eqn:E; rewrite lookup_insert_eq; reflexivity.
Qed.

Lemma lookup_bump_other d k k' : k ≠ k' -> bump k d !! k' = d !! k'.
Proof.
  intros Hne. unfold bump. destruct (d !! k); rewrite lookup_insert_ne; auto.
Qed.

(** The second test of a cutoff repeats the year comparison that the
    first one has just found false, so it never fires: a cutoff is the
    year comparison alone. *)
Lemma gate_year_only since year part :
  truthy_str since = true ->
  gate (Some since) year part = year_before since year.
Proof.
  intros Ht. unfold gate. rewrite Ht.
  destruct (year_before since year) as [[|]|e] eqn:E; cbn; rewrite ?E; reflexivity.
Qed.

Lemma gate_none year part : gate None year part = Val false.
Proof. reflexivity. Qed.

Lemma gate_empty year part : gate (Some EmptyString) year part = Val false.
Proof. reflexivity. Qed.

Lemma passes_split o c :
  passes o c = true <->
  is_excluded o c = false /\ not_created o c = false /\ is_redirect o c = false.
Proof.
  unfold passes. rewrite !andb_true_iff, !negb_true_iff. tauto.
Qed.

Lemma step_skip o s c : passes o c = false -> step o s c = (s, Next).
Proof.
  unfold passes, step. intros H.
  destruct (is_excluded o c); [reflexivity|].
  destruct (not_created o c); [reflexivity|].
  destruct (is_redirect o c); [reflexivity|discriminate].
Qed.

(** Past the filters the year bucket is the first thing touched. *)
Lemma step_years o s c :
  passes o c = true ->
  years (fst (step o s c)) = bump (year_of c) (years s).
Proof.
  intros H. apply passes_split in H as (H1 & H2 & H3).
  unfold step. rewrite H1, H2, H3.
  destruct (gate (months_since o) _ _) as [[|]|e]; [reflexivity| |reflexivity].
  destruct (gate (weeks_since o) _ _) as [[|]|e]; reflexivity.
Qed.

Lemma step_no_cutoff o s c :
  passes o c = true -> months_since o = None -> weeks_since o = None ->
  step o s c =
    ({| years := bump (year_of c) (years s);
        months := bump (month_key c) (months s);
        weeks := bump (week_key c) (weeks s) |}, Next).
Proof.
  intros H Hm Hw. apply passes_split in H as (H1 & H2 & H3).
  unfold step. rewrite H1, H2, H3, Hm, Hw. reflexivity.
Qed.


(** Contributions that do not pass the filters can be left out. *)
Lemma loop_filter_passes o s cs :
  loop o s cs = loop o s (List.filter (passes o) cs).
Proof.
  revert s. induction cs as [|c cs IH]; intros s; cbn; [reflexivity|].
  destruct (passes o c) eqn:E; cbn.
  - destruct (step o s c) as [s' [|e]]; auto.
  - rewrite step_skip by assumption. apply IH.
Qed.


End PeruserFacts.

Section PeruserBuckets.

Implicit Types (o : Options) (s : Stats) (c : Contrib) (d : gmap string nat).

Lemma count_bump d k y :
  count (bump k d) y = if String.eqb k y then S (count d y) else count d y.
Proof.
  destruct (String.eqb_spec k y) as [->|Hne].
  - apply count_bump_same.
  - unfold count. rewrite lookup_bump_other; auto.
Qed.

Lemma loop_drop o s pre c post :
  passes o c = false -> loop o s (pre ++ c :: post) = loop o s (pre ++ post).
Proof.
  intros H. rewrite (loop_filter_passes o s (pre ++ c :: post)).
  rewrite (loop_filter_passes o s (pre ++ post)).
  rewrite !List.filter_app. cbn. rewrite H. reflexivity.
Qed.

Lemma loop_years o cs : forall s s',
  loop o s cs = (s', Next) ->
  forall y, count (years s') y =
    (count (years s) y
     + length (List.filter (fun c => passes o c && String.eqb (year_of c) y) cs))%nat.
Proof.
  induction cs as [|c cs IH]; intros s s' H y; cbn in H.
  - injection H as <-. cbn. lia.
  - cbn [List.filter]. destruct (passes o c) eqn:Hp.
    + pose proof (step_years o s c Hp) as Hy.
      destruct (step o s c) as [s1 [|e]]; [|discriminate].
      cbn in Hy. rewrite (IH _ _ H y), Hy, count_bump.
      destruct (String.eqb (year_of c) y); cbn; lia.
    + rewrite step_skip in H by assumption. cbn. exact (IH _ _ H y).
Qed.

End PeruserBuckets.

Section OrderFacts.

Lemma mem_In a l : mem a l = true <-> In a l.
Proof.
  unfold mem. rewrite existsb_exists. split.
  - intros (x & Hx & E). apply String.eqb_eq in E. congruence.
  - intros H. exists a. split; [assumption|apply String.eqb_refl].
Qed.

Lemma mem_false a l : mem a l = false <-> ~ In a l.
Proof. rewrite <- mem_In. destruct (mem a l); split; congruence. Qed.

Lemma mem_app a l1 l2 : mem a (l1 ++ l2) = mem a l1 || mem a l2.
Proof. apply existsb_app. Qed.

Lemma mem_cons a x l : mem a (x :: l) = String.eqb a x || mem a l.
Proof. reflexivity. Qed.

Lemma before_app l1 l2 a b :
  before (l1 ++ l2) a b =
    before l1 a b
    || (mem a l1 && negb (mem b l1) && mem b l2)
    || (negb (mem a l1) && negb (mem b l1) && before l2 a b).
Proof.
  induction l1 as [|x l1 IH]; cbn [app before]; [reflexivity|].
  rewrite !mem_cons, IH, mem_app. clear IH.
  rewrite (String.eqb_sym a x), (String.eqb_sym b x).
  destruct (String.eqb x a), (String.eqb x b); cbn; try reflexivity.
  all: destruct (mem b l1), (mem b l2), (mem a l1), (before l1 a b); reflexivity.
Qed.

Lemma before_single u k a b : before (repeat u k) a b = false.
Proof.
  induction k as [|k IH]; cbn; [reflexivity|].
  destruct (String.eqb_spec u a) as [->|Ha].
  - destruct (String.eqb_spec a b) as [->|Hb]; cbn; [reflexivity|].
    apply mem_false. intros H. apply repeat_spec in H. congruence.
  - destruct (String.eqb u b); [reflexivity|exact IH].
Qed.

Lemma mem_repeat a u k :
  mem a (repeat u k) = String.eqb a u && Nat.ltb 0 k.
Proof.
  destruct k as [|k]; cbn; [now rewrite andb_false_r|].
  rewrite andb_true_r. destruct (String.eqb_spec a u) as [->|Hne]; [reflexivity|].
  cbn. apply mem_false. intros H. apply repeat_spec in H. congruence.
Qed.

Lemma prec_In {A} (l : list A) x y : prec l x y -> In x l /\ In y l.
Proof.
  induction l as [|z l IH]; cbn; [tauto|].
  intros [[-> H]|H]; [tauto|]. apply IH in H. tauto.
Qed.

Lemma prec_map {A B} (f : A -> B) (l : list A) x' y' :
  prec (map f l) x' y' <-> exists x y, f x = x' /\ f y = y' /\ prec l x y.
Proof.
  induction l as [|z l IH]; cbn.
  - split; [tauto|]. intros (x & y & _ & _ & []).
  - rewrite IH, in_map_iff. split.
    + intros [[Hz (y & Hy & Hin)]|(x & y & Hx & Hy & H)].
      * exists z, y. tauto.
      * exists x, y. tauto.
    + intros (x & y & Hx & Hy & [[-> Hin]|H]).
      * left. split; [assumption|]. exists y. tauto.
      * right. exists x, y. tauto.
Qed.

(** On a list without repetitions the two notions agree. *)
Lemma before_prec l a b : List.NoDup l -> before l a b = true <-> prec l a b.
Proof.
  induction 1 as [|x l Hx Hnd IH]; cbn; [split; [discriminate|tauto]|].
  destruct (String.eqb_spec x a) as [->|Ha].
  - rewrite andb_true_iff, negb_true_iff, String.eqb_neq, mem_In. split.
    + intros [_ H]. left. tauto.
    + intros [[_ H]|H]; [|apply prec_In in H; tauto].
      split; [|assumption]. intros ->. tauto.
  - destruct (String.eqb_spec x b) as [->|Hb].
    + split; [discriminate|]. intros [[H _]|H]; [congruence|].
      apply prec_In in H. tauto.
    + rewrite IH. split; [tauto|]. intros [[H _]|H]; [congruence|assumption].
Qed.

End OrderFacts.

(** ** The stable descending sort *)

Section SortFacts.

Implicit Types (x y : string * nat) (l s : list (string * nat)).

Lemma In_insert_desc x s z : In z (insert_desc x s) <-> z = x \/ In z s.
Proof.
  induction s as [|y s IH]; cbn [insert_desc]; [cbn; intuition|].
  destruct (Nat.ltb_spec (snd x) (snd y)); cbn [In]; [rewrite IH|]; intuition.
Qed.

Lemma descending_insert x s : descending s -> descending (insert_desc x s).
Proof.
  induction s as [|y s IH]; cbn [insert_desc descending]; [cbn; auto|].
  intros [Hy Hs].
  destruct (Nat.ltb_spec (snd x) (snd y)); cbn [descending].
  - split; [|auto]. apply List.Forall_forall. intros z Hz.
    apply In_insert_desc in Hz as [->|Hz]; [lia|].
    rewrite List.Forall_forall in Hy. auto.
  - repeat split; auto. constructor; [assumption|].
    apply List.Forall_forall. intros z Hz.
    rewrite List.Forall_forall in Hy. specialize (Hy z Hz). lia.
Qed.

Lemma descending_sorted l : descending (sorted_desc l).
Proof.
  induction l as [|x l IH]; cbn [sorted_desc foldr]; [exact I|].
  now apply descending_insert.
Qed.

Lemma In_sorted l z : In z (sorted_desc l) <-> In z l.
Proof.
  induction l as [|x l IH]; cbn [sorted_desc foldr In]; [tauto|].
  fold (sorted_desc l). rewrite In_insert_desc, IH. intuition.
Qed.

(** Where the new item lands among the items already sorted. *)
Lemma prec_insert_desc x s a b :
  descending s ->
  prec (insert_desc x s) a b <->
    prec s a b
    \/ (a = x /\ In b s /\ (snd b <= snd x)%nat)
    \/ (b = x /\ In a s /\ (snd x < snd a)%nat).
Proof.
  induction s as [|y s IH]; cbn [insert_desc descending].
  - cbn. intuition.
  - intros [Hy Hs]. rewrite List.Forall_forall in Hy.
    destruct (Nat.ltb_spec (snd x) (snd y)) as [Hlt|Hge].
    + cbn [prec]. rewrite (IH Hs), In_insert_desc. cbn [In]. split.
      * intros [[-> [->|Hb]]|[H|[(-> & Hb & Hle)|(-> & Ha & Hl)]]]; auto 7.
      * intros [[[-> Hb]|H]|[(-> & [->|Hb] & Hle)|(-> & [->|Ha] & Hl)]];
          auto 7; lia.
    + cbn [prec In]. split.
      * intros [[-> [->|Hb]]|[[-> Hb]|H]]; auto 7.
        right. left. repeat split; auto. specialize (Hy _ Hb). lia.
      * intros [[[-> Hb]|H]|[(-> & [->|Hb] & Hle)|(-> & [->|Ha] & Hl)]];
          auto 7; try lia.
        specialize (Hy _ Ha). lia.
Qed.

(** The sorted list puts [a] before [b] exactly when [a] has the larger
    count, or the counts are equal and [a] came first. *)
Lemma prec_sorted_desc l a b :
  prec (sorted_desc l) a b <->
    (In a l /\ In b l /\ (snd b < snd a)%nat)
    \/ (snd a = snd b /\ prec l a b).
Proof.
  induction l as [|x l IH]; cbn [sorted_desc foldr].
  - cbn. tauto.
  - fold (sorted_desc l).
    rewrite (prec_insert_desc _ _ _ _ (descending_sorted l)), IH, !In_sorted.
    cbn [prec In]. split.
    + intros [[(Ha & Hb & Hl)|(He & H)]|[(-> & Hb & Hle)|(-> & Ha & Hl)]];
        auto 8.
      destruct (Nat.eq_dec (snd b) (snd x)); [right; auto|left].
      repeat split; auto; lia.
    + intros [([->|Ha] & [->|Hb] & Hl)|(He & [[-> Hb]|H])]; auto 8; try lia.
      * right. left. repeat split; auto. lia.
      * right. left. repeat split; auto. lia.
Qed.

End SortFacts.

Section CounterFacts.

Implicit Types (d : Counter) (u a b : string).

Lemma keys_incr u d :
  keys (incr u d) = if mem u (keys d) then keys d else keys d ++ [u].
Proof.
  induction d as [|[k c] d IH]; cbn; [reflexivity|].
  rewrite (String.eqb_sym u k).
  destruct (String.eqb k u); cbn; [reflexivity|].
  fold (keys (incr u d)). fold (keys d). rewrite IH.
  fold (mem u (keys d)). destruct (mem u (keys d)); reflexivity.
Qed.

Lemma get_incr u d a :
  get (incr u d) a = if String.eqb u a then S (get d a) else get d a.
Proof.
  induction d as [|[k c] d IH]; cbn; [reflexivity|].
  destruct (String.eqb_spec k u) as [->|Hne]; cbn.
  - destruct (String.eqb u a); reflexivity.
  - rewrite IH. destruct (String.eqb_spec k a) as [->|Hka]; [|reflexivity].
    destruct (String.eqb_spec u a); [congruence|reflexivity].
Qed.

Lemma wf_nil : wf [].
Proof. split; constructor. Qed.

Lemma positive_incr u d :
  Forall (fun p => (0 < snd p)%nat) d ->
  Forall (fun p => (0 < snd p)%nat) (incr u d).
Proof.
  induction 1 as [|[k c] d Hp Hd IH]; cbn.
  - constructor; [cbn; lia|constructor].
  - destruct (String.eqb k u); constructor; cbn in *; auto; lia.
Qed.

Lemma wf_incr u d : wf d -> wf (incr u d).
Proof.
  intros [Hnd Hpos]. split; [|now apply positive_incr].
  rewrite keys_incr. destruct (mem u (keys d)) eqn:E; [assumption|].
  apply mem_false in E. apply List.NoDup_app; repeat split; auto.
  - apply List.NoDup_cons; [intros []|constructor].
  - intros x Hx [<-|[]]. contradiction.
Qed.

Lemma get_absent d a : ~ In a (keys d) -> get d a = 0%nat.
Proof.
  induction d as [|[k c] d IH]; cbn; [reflexivity|]. intros H.
  destruct (String.eqb_spec k a); [tauto|]. apply IH. tauto.
Qed.

Lemma In_get d a c : wf d -> In (a, c) d <-> (c = get d a /\ (0 < c)%nat).
Proof.
  intros [Hnd Hpos]. induction d as [|[k n] d IH]; cbn in *.
  - split; [tauto|lia].
  - apply List.NoDup_cons_iff in Hnd as [Hk Hnd].
    apply List.Forall_cons_iff in Hpos as [Hn Hpos]. cbn in Hn.
    specialize (IH Hnd Hpos).
    destruct (String.eqb_spec k a) as [->|Hne].
    + split.
      * intros [E|H]; [injection E as ->; auto|].
        exfalso. apply Hk. change (In (fst (a, c)) (map fst d)).
        now apply in_map.
      * intros [-> _]. now left.
    + rewrite <- IH. split; [|tauto]. intros [E|H]; [congruence|assumption].
Qed.

Lemma mem_keys d a :
  Forall (fun p => (0 < snd p)%nat) d ->
  mem a (keys d) = Nat.ltb 0 (get d a).
Proof.
  induction 1 as [|[k c] d Hp Hd IH]; cbn [keys map get fst]; [reflexivity|].
  rewrite mem_cons, (String.eqb_sym a k).
  destruct (String.eqb k a); cbn [orb]; [|exact IH].
  symmetry. apply Nat.ltb_lt. exact Hp.
Qed.

End CounterFacts.

Section AlltimeFacts.

Variables (wiki : Site) (asof since : Bound) (excludes : option (list string)).

Implicit Types (d : Counter) (u a b : string) (ev users : list string).

Lemma before_one u a b : before [u] a b = false.
Proof. exact (before_single u 1 a b). Qed.

Lemma tracks_incr u d ev : tracks d ev -> tracks (incr u d) (ev ++ [u]).
Proof.
  intros [Hm Hb]. unfold tracks. rewrite keys_incr. split.
  - intros a. rewrite mem_app, mem_cons. cbn. rewrite orb_false_r.
    destruct (mem u (keys d)) eqn:E.
    + rewrite Hm. destruct (String.eqb_spec a u) as [->|];
        [rewrite <- Hm, E|]; now rewrite ?orb_true_r, ?orb_false_r.
    + rewrite mem_app, mem_cons, Hm. cbn. now rewrite orb_false_r.
  - intros a b. rewrite (before_app ev), before_one, mem_cons. cbn [mem existsb].
    rewrite !andb_false_r, !orb_false_r.
    destruct (mem u (keys d)) eqn:E.
    + rewrite Hb. destruct (String.eqb_spec b u) as [->|].
      * rewrite <- (Hm u), E. cbn. now rewrite andb_false_r, orb_false_r.
      * now rewrite andb_false_r, orb_false_r.
    + rewrite before_app, before_one, mem_cons. cbn [mem existsb].
      now rewrite !andb_false_r, !orb_false_r, Hb, !Hm.
Qed.

Lemma tracks_count_contribs u cs : forall d ev,
  tracks d ev ->
  tracks (count_contribs excludes u cs d)
         (ev ++ repeat u (counted_in excludes cs)).
Proof.
  unfold counted_in.
  induction cs as [|c cs IH]; intros d ev H; cbn.
  - now rewrite app_nil_r.
  - destruct (excluded excludes (title (page c))); cbn; [auto|].
    change (ev ++ u :: ?r) with (ev ++ [u] ++ r). rewrite app_assoc.
    apply IH. now apply tracks_incr.
Qed.

Lemma tracks_count_users users : forall d ev,
  tracks d ev ->
  tracks (count_users wiki asof since excludes users d)
         (ev ++ events wiki asof since excludes users).
Proof.
  induction users as [|u users IH]; intros d ev H; cbn.
  - now rewrite app_nil_r.
  - rewrite app_assoc. apply IH. now apply tracks_count_contribs.
Qed.

Lemma get_count_contribs u a cs : forall d,
  get (count_contribs excludes u cs d) a =
    (get d a + if String.eqb u a then counted_in excludes cs else 0)%nat.
Proof.
  unfold counted_in.
  induction cs as [|c cs IH]; intros d; cbn.
  - destruct (String.eqb u a); lia.
  - destruct (excluded excludes (title (page c))); cbn; [apply IH|].
    rewrite IH, get_incr. destruct (String.eqb u a); lia.
Qed.

Lemma get_count_users a users : forall d,
  get (count_users wiki asof since excludes users d) a =
    (get d a + counted_among wiki asof since excludes users a)%nat.
Proof.
  unfold counted_among, list_sum.
  induction users as [|u users IH]; intros d; cbn; [lia|].
  rewrite IH, get_count_contribs. unfold tally. lia.
Qed.

Lemma wf_count_contribs u cs : forall d,
  wf d -> wf (count_contribs excludes u cs d).
Proof.
  induction cs as [|c cs IH]; intros d H; cbn; [assumption|].
  destruct (excluded excludes (title (page c))); auto using wf_incr.
Qed.

Lemma wf_count_users users : forall d,
  wf d -> wf (count_users wiki asof since excludes users d).
Proof.
  induction users as [|u users IH]; intros d H; cbn;
    auto using wf_count_contribs.
Qed.

Lemma mem_events a users :
  (0 < tally wiki asof since excludes a)%nat ->
  mem a (events wiki asof since excludes users) = mem a users.
Proof.
  intros Ha. induction users as [|u users IH]; cbn [events flat_map]; [reflexivity|].
  fold (events wiki asof since excludes users).
  rewrite mem_app, mem_repeat, mem_cons, IH.
  destruct (String.eqb_spec a u) as [<-|]; [|reflexivity].
  apply Nat.ltb_lt in Ha. now rewrite Ha.
Qed.

(** Users whose listing counts at least once are first incremented in
    the order in which the user list names them. *)
Lemma before_events a b users :
  (0 < tally wiki asof since excludes a)%nat ->
  (0 < tally wiki asof since excludes b)%nat ->
  before (events wiki asof since excludes users) a b = before users a b.
Proof.
  intros Ha Hb. induction users as [|u users IH]; cbn [events flat_map]; [reflexivity|].
  fold (events wiki asof since excludes users).
  rewrite before_app, before_single, !mem_repeat, IH, (mem_events b users Hb).
  cbn [before]. rewrite (String.eqb_sym a u), (String.eqb_sym b u).
  apply Nat.ltb_lt in Ha, Hb.
  destruct (String.eqb_spec u a) as [->|Hua].
  - rewrite Ha. destruct (String.eqb a b); cbn; [reflexivity|].
    now rewrite orb_false_r.
  - destruct (String.eqb_spec u b) as [->|Hub]; [rewrite Hb|]; reflexivity.
Qed.

Lemma counted_among_pos a users :
  (0 < counted_among wiki asof since excludes users a)%nat ->
  (0 < tally wiki asof since excludes a)%nat.
Proof.
  unfold counted_among. induction users as [|u users IH]; cbn; [lia|].
  destruct (String.eqb_spec u a) as [->|]; [|exact IH].
  destruct (tally wiki asof since excludes a); [exact IH|lia].
Qed.

Lemma active_users_wf : wf (active_users wiki asof since excludes).
Proof. apply wf_count_users, wf_nil. Qed.

Lemma active_users_get a :
  get (active_users wiki asof since excludes) a =
    counted wiki asof since excludes a.
Proof. unfold active_users. now rewrite get_count_users. Qed.

Lemma active_users_tracks :
  tracks (active_users wiki asof since excludes)
         (events wiki asof since excludes (alltime_active_users wiki)).
Proof.
  apply (tracks_count_users _ [] []). split; reflexivity.
Qed.

End AlltimeFacts.

Section Ranking.

Variables (wiki : Site) (asof since : Bound) (excludes : option (list string)).

Lemma insert_desc_perm x s : Permutation (insert_desc x s) (x :: s).
Proof.
  induction s as [|y s IH]; cbn [insert_desc]; [reflexivity|].
  destruct (Nat.ltb (snd x) (snd y)); [|reflexivity].
  rewrite IH. apply perm_swap.
Qed.

Lemma sorted_desc_perm l : Permutation (sorted_desc l) l.
Proof.
  induction l as [|x l IH]; cbn [sorted_desc foldr]; [reflexivity|].
  fold (sorted_desc l). rewrite insert_desc_perm. now constructor.
Qed.

Lemma keys_alltime :
  map snd (alltime wiki asof since excludes) =
    keys (sorted_desc (active_users wiki asof since excludes)).
Proof.
  unfold alltime, keys. rewrite map_map. apply map_ext. now intros [u c].
Qed.

Lemma In_alltime c u :
  In (c, u) (alltime wiki asof since excludes) <->
  In (u, c) (active_users wiki asof since excludes).
Proof.
  unfold alltime. rewrite in_map_iff. split.
  - intros ([u' c'] & E & H). injection E as -> ->.
    rewrite In_sorted in H. exact H.
  - intros H. exists (u, c). split; [reflexivity|]. rewrite In_sorted. exact H.
Qed.

(** An entry of the counter is the user with its counted contributions. *)
Lemma In_active_users u c :
  In (u, c) (active_users wiki asof since excludes) <->
  c = counted wiki asof since excludes u /\ (0 < c)%nat.
Proof.
  rewrite (In_get _ _ _ (active_users_wf wiki asof since excludes)).
  now rewrite active_users_get.
Qed.

Lemma prec_active_users a b :
  (0 < counted wiki asof since excludes a)%nat ->
  (0 < counted wiki asof since excludes b)%nat ->
  prec (active_users wiki asof since excludes)
       (a, counted wiki asof since excludes a)
       (b, counted wiki asof since excludes b) <->
  before (alltime_active_users wiki) a b = true.
Proof.
  intros Ha Hb.
  pose proof (active_users_wf wiki asof since excludes) as [Hnd _].
  pose proof (active_users_tracks wiki asof since excludes) as [_ Hb'].
  rewrite <- (before_events wiki asof since excludes a b)
    by (eapply counted_among_pos; eassumption).
  rewrite <- Hb', (before_prec _ _ _ Hnd). unfold keys. rewrite prec_map.
  split.
  - intros H. eexists _, _. repeat split; [..|exact H]; reflexivity.
  - intros ([a' ca] & [b' cb] & Ea & Eb & H). cbn in Ea, Eb. subst a' b'.
    destruct (prec_In _ _ _ H) as [Hia Hib].
    apply In_active_users in Hia as [-> _], Hib as [-> _]. exact H.
Qed.

End Ranking.

Section RegexFacts.

Implicit Types (r : regex) (t : text) (p : N -> bool).

Lemma re_match_In r t t' : In t' (rests r t) -> re_match r t = true.
Proof. unfold re_match. destruct (rests r t); [intros []|reflexivity]. Qed.

Lemma rests_seq r1 r2 t t1 t2 :
  In t1 (rests r1 t) -> In t2 (rests r2 t1) -> In t2 (rests (Seq r1 r2) t).
Proof. intros H1 H2. cbn. apply in_flat_map. eauto. Qed.

Lemma star_rests_head p t : In t (star_rests p t).
Proof. destruct t; cbn; auto. Qed.

Lemma star_rests_skip p ws t :
  Forall (fun c => p c = true) ws -> In t (star_rests p (ws ++ t)).
Proof.
  induction 1 as [|c ws Hc _ IH]; cbn [app]; [apply star_rests_head|].
  cbn. rewrite Hc. now right.
Qed.

(** A character whose lower case is the pattern's letter is accepted by
    that letter under [re.I]. *)
Lemma lit_i_fold c t :
  rests (lit_i (fold_case c)) (c :: t) = [t].
Proof.
  cbn. enough (E : ((c =? fold_case c) || (c =? upper (fold_case c)))%N = true)
    by now rewrite E.
  unfold upper, fold_case.
  destruct (N.leb_spec 0x41 c), (N.leb_spec c 0x5A),
           (N.leb_spec 0x410 c), (N.leb_spec c 0x42F); cbn [andb orb];
    try (rewrite N.eqb_refl; reflexivity); try lia.
  - replace ((0x61 <=? c + 32) && (c + 32 <=? 0x7A))%N with true
      by (symmetry; apply andb_true_iff; split; apply N.leb_le; lia).
    cbn [orb]. replace (c + 32 - 32)%N with c by lia.
    now rewrite N.eqb_refl, orb_true_r.
  - replace ((0x430 <=? c + 32) && (c + 32 <=? 0x44F))%N with true
      by (symmetry; apply andb_true_iff; split; apply N.leb_le; lia).
    rewrite orb_true_r. replace (c + 32 - 32)%N with c by lia.
    now rewrite N.eqb_refl, orb_true_r.
Qed.

Lemma word_i_fold m t : In t (rests (word_i (map fold_case m)) (m ++ t)).
Proof.
  induction m as [|c m IH]; cbn [map word_i app]; [now left|].
  eapply rests_seq; [|exact IH]. rewrite lit_i_fold. now left.
Qed.

Lemma fold_case_space c : fold_case c = 0x20%N -> space c = true.
Proof.
  unfold fold_case.
  destruct (N.leb_spec 0x41 c), (N.leb_spec c 0x5A),
           (N.leb_spec 0x410 c), (N.leb_spec c 0x42F); cbn [andb orb];
    intros E; try lia; subst c; reflexivity.
Qed.

(** Both markers are matched by the pattern of the redirect test. *)
Lemma marker_matches w ws m rest :
  w = vizh \/ w = codes "redirect" ->
  Forall (fun c => space c = true) ws ->
  map fold_case m = codes "#" ++ w ++ codes " [[" ->
  In rest (rests redirect_re (ws ++ m ++ rest)).
Proof.
  intros Hw Hws E.
  apply map_eq_app in E as (m1 & m' & -> & E1 & E).
  apply map_eq_app in E as (m2 & m'' & -> & E2 & E).
  change (codes " [[") with ([0x20%N] ++ codes "[[") in E.
  apply map_eq_app in E as (m3 & m4 & -> & E3 & E4).
  destruct m3 as [|c [|? ?]]; try discriminate. injection E3 as E3.
  rewrite <- !app_assoc. unfold redirect_re.
  eapply rests_seq; [now apply star_rests_skip|].
  eapply rests_seq; [rewrite <- E1; apply word_i_fold|].
  eapply rests_seq.
  { cbn [rests]. apply in_or_app.
    destruct Hw as [Hw|Hw]; [left|right]; rewrite <- Hw, <- E2;
      apply word_i_fold. }
  eapply rests_seq; [|rewrite <- E4; apply word_i_fold].
  cbn [app]. unfold plus. eapply rests_seq; [|apply star_rests_head].
  cbn. rewrite (fold_case_space _ E3). now left.
Qed.

Lemma marker_is_redirect t : begins_with_marker t -> re_match redirect_re t = true.
Proof.
  intros (ws & m & rest & -> & Hws & [E|E]);
    apply (re_match_In _ _ rest);
    [apply (marker_matches (codes "redirect"))|apply (marker_matches vizh)];
    auto.
Qed.

End RegexFacts.

Section CutoffFacts.

Implicit Types (o : Options) (s : Stats) (c : Contrib).

Lemma int_unsigned_exn t e : int_unsigned t = Raise e -> e = ValueError.
Proof.
  unfold int_unsigned. destruct (int_digits t 0 0%nat false) as [[v n]|];
    [destruct (Nat.leb n int_max_str_digits)|]; congruence.
Qed.

(** [int] raises nothing but [ValueError]. *)
Lemma int_exn t e : int t = Raise e -> e = ValueError.
Proof.
  unfold int. destruct (strip t) as [|ch t']; [congruence|].
  destruct (Ascii.eqb ch "-").
  - destruct (int_unsigned t') eqn:E; cbn; rewrite ?E; cbn; [congruence|].
    intros H. injection H as <-. eauto using int_unsigned_exn.
  - destruct (Ascii.eqb ch "+"); apply int_unsigned_exn.
Qed.

Lemma split_year_part since :
  index (split "-" since) 0 = Val (year_part since).
Proof.
  unfold year_part, index.
  induction since as [|ch since IH]; cbn; [reflexivity|].
  destruct (Ascii.eqb ch "-"); [reflexivity|].
  destruct (split "-" since); reflexivity.
Qed.









End CutoffFacts.

Section Exclusion.

Lemma excluded_In l t : In t l -> excluded (Some l) t = true.
Proof.
  intros H. unfold excluded. destruct l as [|x l]; [destruct H|].
  apply existsb_exists. exists t. split; [assumption|apply String.eqb_refl].
Qed.

Lemma count_contribs_app ex u cs1 cs2 : forall d,
  count_contribs ex u (cs1 ++ cs2) d =
    count_contribs ex u cs2 (count_contribs ex u cs1 d).
Proof.
  induction cs1 as [|c cs1 IH]; intros d; cbn; [reflexivity|].
  destruct (excluded ex (title (page c))); apply IH.
Qed.

End Exclusion.

(** ** The claims of the specification *)

(** C1: with a month cutoff "YYYY-MM", the months bucket is meant to be
    incremented only for contributions not earlier than the cutoff.  The
    code compares years only: with the cutoff "2020-06", an edit of
    2020-03-10, earlier than the cutoff, is counted under "2020 03". *)
Theorem month_cutoff_ignores_month :
  well_shaped "2020-06" = true
  /\ earlier 2020 3 2020 6 = true
  /\ passes (with_months "2020-06") (edit plain 2020 3 10) = true
  /\ gate (Some "2020-06") "2020" "03" = Val false
  /\ loop (with_months "2020-06") empty_stats [edit plain 2020 3 10] =
       ({| years := {[ "2020" := 1%nat ]};
           months := {[ "2020 03" := 1%nat ]};
           weeks := {[ "2020 11" := 1%nat ]} |}, Next).
Proof. repeat split; vm_compute; reflexivity. Qed.

(** C2: the weeks bucket is meant to depend on the week cutoff alone.
    In the code the [continue] of the month cutoff leaves the loop body
    before the weeks bucket: with the month cutoff "2020-01" and no week
    cutoff, an edit of 2019-06-15 is in no weeks bucket, although without
    the month cutoff it is counted under "2019 24". *)
Theorem month_cutoff_skips_weeks :
  weeks_since (with_months "2020-01") = None
  /\ passes (with_months "2020-01") (edit plain 2019 6 15) = true
  /\ gate None "2019" "24" = Val false
  /\ loop (with_months "2020-01") empty_stats [edit plain 2019 6 15] =
       ({| years := {[ "2019" := 1%nat ]}; months := ∅; weeks := ∅ |}, Next)
  /\ loop defaults empty_stats [edit plain 2019 6 15] =
       ({| years := {[ "2019" := 1%nat ]};
           months := {[ "2019 06" := 1%nat ]};
           weeks := {[ "2019 24" := 1%nat ]} |}, Next).
Proof. repeat split; vm_compute; reflexivity. Qed.

(** C3: in the output of the all-time aggregator, for two users A and B
    that have counted contributions a and b, A is printed before B exactly
    when a > b, or a = b and A was met before B in the list of users; the
    lines printed for them carry these counts. *)
Theorem alltime_ranking (wiki : Site) (asof since : Bound)
    (excludes : option (list string)) (A B : string) :
  (0 < counted wiki asof since excludes A)%nat ->
  (0 < counted wiki asof since excludes B)%nat ->
  In (counted wiki asof since excludes A, A) (alltime wiki asof since excludes)
  /\ In (counted wiki asof since excludes B, B) (alltime wiki asof since excludes)
  /\ (before (map snd (alltime wiki asof since excludes)) A B = true <->
        (counted wiki asof since excludes B < counted wiki asof since excludes A)%nat
        \/ (counted wiki asof since excludes A = counted wiki asof since excludes B
            /\ before (alltime_active_users wiki) A B = true)).
Proof.
  set (a := counted wiki asof since excludes A).
  set (b := counted wiki asof since excludes B).
  intros Ha Hb.
  assert (HA : In (A, a) (active_users wiki asof since excludes))
    by now apply In_active_users.
  assert (HB : In (B, b) (active_users wiki asof since excludes))
    by now apply In_active_users.
  split; [now apply In_alltime|]. split; [now apply In_alltime|].
  pose proof (active_users_wf wiki asof since excludes) as [Hnd _].
  rewrite keys_alltime, before_prec.
  2:{ unfold keys. eapply Permutation_NoDup; [|exact Hnd].
      apply Permutation_map. symmetry. apply sorted_desc_perm. }
  unfold keys. rewrite prec_map.
  rewrite <- (prec_active_users wiki asof since excludes A B Ha Hb).
  fold a b. split.
  - intros ([a' ca] & [b' cb] & Ea & Eb & H). cbn in Ea, Eb. subst a' b'.
    apply prec_sorted_desc in H. cbn [snd] in H.
    assert (Hin : In (A, ca) (active_users wiki asof since excludes)
                  /\ In (B, cb) (active_users wiki asof since excludes)).
    { destruct H as [(? & ? & _)|[_ H]]; [tauto|]. now apply prec_In in H. }
    destruct Hin as [Hia Hib].
    apply In_active_users in Hia as [-> _], Hib as [-> _].
    fold a b in H. tauto.
  - intros H. exists (A, a), (B, b). repeat split.
    apply prec_sorted_desc. cbn [snd]. tauto.
Qed.

(** Scenario 2 of the specification: Carol (2) is met first, then Alice
    (5) and Bob (5); Alice and Bob are printed before Carol, and Alice
    before Bob. *)
Lemma alltime_ranking_witness :
  (0 < counted club NoBound NoBound None "Alice")%nat
  /\ (0 < counted club NoBound NoBound None "Bob")%nat
  /\ alltime club NoBound NoBound None = [(5, "Alice"); (5, "Bob"); (2, "Carol")]%nat
  /\ before (map snd (alltime club NoBound NoBound None)) "Alice" "Bob" = true.
Proof.
  assert (Ha : (0 < counted club NoBound NoBound None "Alice")%nat) by (vm_compute; lia).
  assert (Hb : (0 < counted club NoBound NoBound None "Bob")%nat) by (vm_compute; lia).
  split; [exact Ha|]. split; [exact Hb|]. split; [reflexivity|].
  apply (alltime_ranking club NoBound NoBound None "Alice" "Bob" Ha Hb).
  right. split; reflexivity.
Defined.

(** C4: a contribution that passes the filters increments the bucket of
    its year exactly once and touches no other year, whatever the month
    and week cutoffs are; over a whole run that ends normally, the count
    of a year is the number of passing contributions of that year. *)
Theorem year_counted_once (o : Options) :
  (forall s c,
     passes o c = true ->
     count (years (fst (step o s c))) (year_of c) = S (count (years s) (year_of c))
     /\ forall k, k <> year_of c -> years (fst (step o s c)) !! k = years s !! k)
  /\ (forall cs s',
        loop o empty_stats cs = (s', Next) ->
        forall y, count (years s') y =
          length (List.filter (fun c => passes o c && String.eqb (year_of c) y) cs)).
Proof.
  split.
  - intros s c Hp. rewrite (step_years o s c Hp). split.
    + apply count_bump_same.
    + intros k Hk. now apply lookup_bump_other.
  - intros cs s' H y. rewrite (loop_years o cs _ _ H y). reflexivity.
Qed.

(** Scenario 4: with the month cutoff "2020-01" an edit of January 2019 is
    counted in [years] and left out of [months]. *)
Lemma year_counted_once_witness :
  passes (with_months "2020-01") (edit plain 2019 1 15) = true
  /\ count (years (fst (step (with_months "2020-01") empty_stats
                          (edit plain 2019 1 15)))) "2019" = 1%nat
  /\ months (fst (step (with_months "2020-01") empty_stats
                    (edit plain 2019 1 15))) = ∅
  /\ count (years (fst (loop (with_months "2020-01") empty_stats
                          [edit plain 2019 1 15; edit plain 2019 2 1])))
           "2019" = 2%nat.
Proof.
  assert (Hp : passes (with_months "2020-01") (edit plain 2019 1 15) = true)
    by reflexivity.
  split; [exact Hp|]. split; [|split; [reflexivity|]].
  - exact (proj1 (proj1 (year_counted_once (with_months "2020-01"))
                    empty_stats (edit plain 2019 1 15) Hp)).
  - exact (proj2 (year_counted_once (with_months "2020-01"))
             [edit plain 2019 1 15; edit plain 2019 2 1] _ eq_refl "2019").
Defined.

(** C5: a contribution to a page of the exclusion set changes no bucket
    of the per-user aggregator, whatever its revision, text and date are,
    and no counter of the all-time aggregator: both give the result they
    give without it. *)
Theorem excluded_page_not_counted (l : list string) (c : Contrib) :
  In (title (page c)) l ->
  (forall o s, excludes o = Some l ->
     step o s c = (s, Next)
     /\ forall pre post, loop o s (pre ++ c :: post) = loop o s (pre ++ post))
  /\ (forall u d,
        count_contribs (Some l) u [c] d = d
        /\ forall pre post,
             count_contribs (Some l) u (pre ++ c :: post) d =
             count_contribs (Some l) u (pre ++ post) d).
Proof.
  intros Hin. pose proof (excluded_In _ _ Hin) as He. split.
  - intros o s Ho.
    assert (Hp : passes o c = false)
      by (unfold passes, is_excluded; now rewrite Ho, He).
    split; [now apply step_skip|]. intros pre post. now apply loop_drop.
  - intros u d. split; [cbn [count_contribs]; now rewrite He|].
    intros pre post. rewrite !count_contribs_app. cbn [count_contribs].
    now rewrite He.
Qed.

(** Scenario 3: excluding "Sandbox" removes the edits to it from both
    aggregators. *)
Lemma excluded_page_not_counted_witness :
  In (title (page (edit sandbox 2020 5 1))) ["Sandbox"]
  /\ step (excluding ["Sandbox"]) empty_stats (edit sandbox 2020 5 1)
     = (empty_stats, Next)
  /\ count_contribs (Some ["Sandbox"]) "Alice" [edit sandbox 2020 5 1] [] = [].
Proof.
  assert (Hin : In (title (page (edit sandbox 2020 5 1))) ["Sandbox"])
    by (left; reflexivity).
  pose proof (excluded_page_not_counted ["Sandbox"] (edit sandbox 2020 5 1) Hin)
    as [Hper Hall].
  split; [exact Hin|]. split.
  - exact (proj1 (Hper (excluding ["Sandbox"]) empty_stats eq_refl)).
  - exact (proj1 (Hall "Alice" [])).
Defined.

(** C6: with [created_only], a contribution whose revision is not the
    oldest revision of its page changes no bucket; the run gives the
    result it gives without it. *)
Theorem created_only_skips_later_edits (o : Options) (s : Stats) (c : Contrib) :
  Peruser.created_only o = true ->
  revid c <> oldest_revid (page c) ->
  step o s c = (s, Next)
  /\ forall pre post, loop o s (pre ++ c :: post) = loop o s (pre ++ post).
Proof.
  intros Hc Hne.
  assert (Hp : passes o c = false).
  { unfold passes, not_created. rewrite Hc.
    apply Z.eqb_neq in Hne. rewrite Hne. cbn. now rewrite andb_false_r. }
  split; [now apply step_skip|]. intros pre post. now apply loop_drop.
Qed.

Lemma created_only_skips_later_edits_witness :
  revid (edit plain 2020 5 1) <> oldest_revid (page (edit plain 2020 5 1))
  /\ step creations_only empty_stats (edit plain 2020 5 1) = (empty_stats, Next).
Proof.
  assert (Hne : revid (edit plain 2020 5 1) <> oldest_revid (page (edit plain 2020 5 1)))
    by (cbn; lia).
  split; [exact Hne|].
  exact (proj1 (created_only_skips_later_edits creations_only empty_stats _
                  eq_refl Hne)).
Defined.

(** C7: without [include_redirects], a contribution to a page whose oldest
    revision begins with the redirect marker changes no bucket; with
    [include_redirects] the text is not looked at, and the contribution,
    if the other two filters let it through, is counted in its year, and
    in its month and week when no cutoff is given. *)
Theorem redirect_filter (o : Options) (s : Stats) (c : Contrib) :
  begins_with_marker (getOldVersion (page c) (oldest_revid (page c))) ->
  (Peruser.include_redirects o = false -> step o s c = (s, Next))
  /\ (Peruser.include_redirects o = true ->
      is_excluded o c = false -> not_created o c = false ->
      count (years (fst (step o s c))) (year_of c) = S (count (years s) (year_of c))
      /\ (months_since o = None -> weeks_since o = None ->
          step o s c =
            ({| years := bump (year_of c) (years s);
                months := bump (month_key c) (months s);
                weeks := bump (week_key c) (weeks s) |}, Next))).
Proof.
  intros Hm. apply marker_is_redirect in Hm. split.
  - intros Hi. apply step_skip. unfold passes, is_redirect.
    rewrite Hi, Hm. cbn. apply andb_false_r.
  - intros Hi He Hc.
    assert (Hp : passes o c = true).
    { apply passes_split. repeat split; auto. unfold is_redirect. now rewrite Hi. }
    split.
    + rewrite (step_years o s c Hp). apply count_bump_same.
    + intros. now apply step_no_cutoff.
Qed.

Lemma redirect_filter_witness :
  begins_with_marker
    (getOldVersion (page (edit redirect 2020 5 1))
       (oldest_revid (page (edit redirect 2020 5 1))))
  /\ step defaults empty_stats (edit redirect 2020 5 1) = (empty_stats, Next)
  /\ step redirects_too empty_stats (edit redirect 2020 5 1) =
       ({| years := {[ "2020" := 1%nat ]};
           months := {[ "2020 05" := 1%nat ]};
           weeks := {[ "2020 18" := 1%nat ]} |}, Next).
Proof.
  assert (Hm : begins_with_marker
                 (getOldVersion (page (edit redirect 2020 5 1))
                    (oldest_revid (page (edit redirect 2020 5 1))))).
  { exists [], (codes "#REDIRECT [["), (codes "Sofia]]").
    split; [reflexivity|]. split; [constructor|]. left. reflexivity. }
  split; [exact Hm|]. split.
  - exact (proj1 (redirect_filter defaults empty_stats _ Hm) eq_refl).
  - exact (proj2 (proj2 (redirect_filter redirects_too empty_stats _ Hm)
                    eq_refl eq_refl eq_refl) eq_refl eq_refl).
Defined.

(** C8: without [--since] the fetch is meant to start at a fixed date,
    2017-07-01 for totals and 2008-12-01 for a user.  [main] hands the
    missing option on as [None], which replaces the defaults of [alltime]
    and [peruser]: on a wiki that honours the bound, an edit of
    2005-03-01 is counted in both modes, while the aggregators called
    with their default bounds leave it out. *)
Theorem since_default_not_used :
  since totals_args = None
  /\ main (fun _ _ => archive) totals_args = Val (Totals [(1%nat, "Alice")])
  /\ alltime archive NoBound (Text ALLTIME_FROM_DATE) None = []
  /\ since user_args = None
  /\ main (fun _ _ => archive) user_args =
       Val (UserStats {| years := {[ "2005" := 1%nat ]};
                         months := {[ "2005 03" := 1%nat ]};
                         weeks := {[ "2005 09" := 1%nat ]} |})
  /\ peruser archive "Alice" NoBound (Text PERUSER_FROM_DATE) None defaults =
       Val empty_stats.
Proof. repeat split; vm_compute; reflexivity. Qed.






(** ** Reading numbers back *)

Section ReadBack.

Import DecimalString.















Lemma str_digits n : 0 <= n -> all_digits (str n) = true.
Proof.
  intros Hn. unfold str. destruct n as [|p|p]; [reflexivity| |lia].
  cbn [Z.to_int NilZero.string_of_int]. generalize (Pos.to_uint p). intros d.
  destruct (Decimal.uint_eq_dec d Decimal.Nil) as [->|Hd]; [reflexivity|].
  replace (NilZero.string_of_uint d) with (NilEmpty.string_of_uint d)
    by (destruct d; [congruence|reflexivity..]).
  clear Hd. induction d; cbn; auto.
Qed.

End ReadBack.

Section YearStrings.





End YearStrings.

(** ** What a cutoff does *)

Section GateFacts.

Implicit Types (o : Options) (s : Stats) (c : Contrib).

Lemma year_before_year_part since year :
  year_before since year =
    (y ← int year; cy ← int (year_part since); Val (y <? cy)).
Proof.
  unfold year_before. destruct (int year); cbn; [|reflexivity].
  now rewrite split_year_part.
Qed.

Lemma year_before_exn since year e :
  year_before since year = Raise e -> e = ValueError.
Proof.
  rewrite year_before_year_part.
  destruct (int year) as [y|e1] eqn:E1; cbn.
  - destruct (int (year_part since)) as [cy|e2] eqn:E2; cbn; [discriminate|].
    intros [= <-]. eauto using int_exn.
  - intros [= <-]. eauto using int_exn.
Qed.

Lemma gate_exn since year part e :
  gate since year part = Raise e -> e = ValueError.
Proof.
  destruct since as [since|]; [|discriminate].
  destruct (truthy_str since) eqn:Ht.
  - rewrite gate_year_only by assumption. apply year_before_exn.
  - unfold gate. rewrite Ht. discriminate.
Qed.

Lemma gate_same_year_part (a1 a2 year p1 p2 : string) :
  truthy_str a1 = true -> truthy_str a2 = true ->
  year_part a1 = year_part a2 ->
  gate (Some a1) year p1 = gate (Some a2) year p2.
Proof.
  intros H1 H2 E. rewrite !gate_year_only by assumption.
  rewrite !year_before_year_part. now rewrite E.
Qed.



Lemma step_exn o s c s' e : step o s c = (s', Raised e) -> e = ValueError.
Proof.
  unfold step.
  destruct (is_excluded o c); [discriminate|].
  destruct (not_created o c); [discriminate|].
  destruct (is_redirect o c); [discriminate|].
  destruct (gate (months_since o) _ _) as [[|]|e1] eqn:E1; try discriminate.
  - destruct (gate (weeks_since o) _ _) as [[|]|e2] eqn:E2; try discriminate.
    intros [= _ <-]. eauto using gate_exn.
  - intros [= _ <-]. eauto using gate_exn.
Qed.

Lemma loop_exn o cs : forall s s' e,
  loop o s cs = (s', Raised e) -> e = ValueError.
Proof.
  induction cs as [|c cs IH]; intros s s' e; cbn; [discriminate|].
  destruct (step o s c) as [s1 [|e1]] eqn:E; [apply IH|].
  intros [= _ <-]. eauto using step_exn.
Qed.



Lemma step_same_cutoffs o s c m1 m2 w1 w2 :
  (forall year p1 p2, gate m1 year p1 = gate m2 year p2) ->
  (forall year p1 p2, gate w1 year p1 = gate w2 year p2) ->
  step (with_cutoffs o m1 w1) s c = step (with_cutoffs o m2 w2) s c.
Proof.
  intros Hm Hw. unfold step. cbn [months_since weeks_since with_cutoffs].
  change (is_excluded (with_cutoffs o m1 w1) c) with (is_excluded o c).
  change (is_excluded (with_cutoffs o m2 w2) c) with (is_excluded o c).
  change (not_created (with_cutoffs o m1 w1) c) with (not_created o c).
  change (not_created (with_cutoffs o m2 w2) c) with (not_created o c).
  change (is_redirect (with_cutoffs o m1 w1) c) with (is_redirect o c).
  change (is_redirect (with_cutoffs o m2 w2) c) with (is_redirect o c).
  rewrite (Hm (year_of c) (month_of c) (month_of c)).
  rewrite (Hw (year_of c) (week_of c) (week_of c)). reflexivity.
Qed.

Lemma loop_same_cutoffs o cs m1 m2 w1 w2 : forall s,
  (forall year p1 p2, gate m1 year p1 = gate m2 year p2) ->
  (forall year p1 p2, gate w1 year p1 = gate w2 year p2) ->
  loop (with_cutoffs o m1 w1) s cs = loop (with_cutoffs o m2 w2) s cs.
Proof.
  induction cs as [|c cs IH]; intros s Hm Hw; cbn; [reflexivity|].
  rewrite (step_same_cutoffs o s c m1 m2 w1 w2 Hm Hw).
  destruct (step _ s c) as [s1 [|e]]; auto.
Qed.

End GateFacts.

(** ** The buckets over a run *)

Section BucketFacts.

Implicit Types (o : Options) (s : Stats) (c : Contrib) (d : gmap string nat).

Lemma total_comm (j1 j2 : string) (z1 z2 y : nat) :
  (z1 + (z2 + y) = z2 + (z1 + y))%nat.
Proof. lia. Qed.

Lemma total_empty : total ∅ = 0%nat.
Proof. apply map_fold_empty. Qed.

Lemma total_insert_fresh d k v :
  d !! k = None -> total (<[k := v]> d) = (v + total d)%nat.
Proof.
  intros H. unfold total. rewrite map_fold_insert_L; auto.
  intros. apply total_comm; assumption.
Qed.

Lemma total_delete d k n :
  d !! k = Some n -> total d = (n + total (delete k d))%nat.
Proof.
  intros H. unfold total.
  rewrite (map_fold_delete_L _ _ k n d); auto.
  intros. apply total_comm; assumption.
Qed.

(** Counting once more adds one to the sum of a dict. *)
Lemma total_bump k d : total (bump k d) = S (total d).
Proof.
  unfold bump. destruct (d !! k) as [n|] eqn:E.
  - rewrite <- insert_delete_eq, total_insert_fresh by apply lookup_delete_eq.
    rewrite (total_delete d k n E). lia.
  - now rewrite total_insert_fresh.
Qed.

Lemma lookup_bump d k j :
  bump k d !! j = if decide (k = j) then Some (S (count d k)) else d !! j.
Proof.
  destruct (decide (k = j)) as [<-|Hne].
  - unfold bump, count. destruct (d !! k); now rewrite lookup_insert_eq.
  - now apply lookup_bump_other.
Qed.

Lemma bump_comm d k1 k2 : bump k1 (bump k2 d) = bump k2 (bump k1 d).
Proof.
  apply map_eq. intros j. rewrite !lookup_bump. unfold count.
  rewrite !lookup_bump.
  destruct (decide (k1 = j)), (decide (k2 = j)), (decide (k1 = k2)),
           (decide (k2 = k1)); subst; try congruence; reflexivity.
Qed.

Lemma bump_if_comm d b1 b2 k1 k2 :
  bump_if b1 k1 (bump_if b2 k2 d) = bump_if b2 k2 (bump_if b1 k1 d).
Proof. destruct b1, b2; cbn; auto using bump_comm. Qed.

Lemma count_bump_if d b k y :
  count (bump_if b k d) y =
    (count d y + if b && String.eqb k y then 1 else 0)%nat.
Proof.
  destruct b; cbn; [|lia]. rewrite count_bump.
  destruct (String.eqb k y); lia.
Qed.

Lemma total_bump_if d b k :
  total (bump_if b k d) = (total d + if b then 1 else 0)%nat.
Proof. destruct b; cbn; [rewrite total_bump|]; lia. Qed.

(** The loop body, split into what it does and how it ends. *)
Lemma step_effect o s c : step o s c = (effect o c s, ending o c).
Proof.
  unfold step, effect, ending, in_years, in_months, in_weeks, month_open,
    week_open, open, passes.
  destruct s as [ys ms ws].
  destruct (is_excluded o c); [reflexivity|].
  destruct (not_created o c); [reflexivity|].
  destruct (is_redirect o c); [reflexivity|]. cbn.
  destruct (gate (months_since o) _ _) as [[|]|e]; [reflexivity| |reflexivity].
  destruct (gate (weeks_since o) _ _) as [[|]|e]; reflexivity.
Qed.

Lemma effect_comm o c1 c2 s :
  effect o c1 (effect o c2 s) = effect o c2 (effect o c1 s).
Proof.
  unfold effect. cbn. f_equal; apply bump_if_comm.
Qed.

Lemma loop_cons o s c cs :
  loop o s (c :: cs) =
    match ending o c with
    | Next => loop o (effect o c s) cs
    | Raised e => (effect o c s, Raised e)
    end.
Proof. cbn. now rewrite step_effect. Qed.

(** A run that ends normally does not depend on the order of the
    contributions. *)
Lemma loop_permutation o cs cs' :
  Permutation cs cs' ->
  forall s s', loop o s cs = (s', Next) -> loop o s cs' = (s', Next).
Proof.
  induction 1 as [|c cs cs' _ IH|c1 c2 cs|cs1 cs2 cs3 _ IH1 _ IH2];
    intros s s'; auto.
  - rewrite !loop_cons. destruct (ending o c); [apply IH|discriminate].
  - rewrite !loop_cons.
    destruct (ending o c1), (ending o c2); try discriminate.
    now rewrite effect_comm.
Qed.

Lemma in_weeks_months o c : in_weeks o c = true -> in_months o c = true.
Proof. unfold in_weeks, in_months. now intros [H _]%andb_true_iff. Qed.

Lemma in_months_years o c : in_months o c = true -> in_years o c = true.
Proof. unfold in_months, in_years. now intros [H _]%andb_true_iff. Qed.

(** However a run ends, no bucket of a finer grain holds more than the
    coarser one, and the years hold at most the passing contributions. *)
Lemma loop_totals o cs : forall s s' sg,
  loop o s cs = (s', sg) ->
  (total (weeks s') - total (weeks s) <= total (months s') - total (months s)
   <= total (years s') - total (years s))%nat
  /\ (total (years s') - total (years s) <= length (List.filter (passes o) cs))%nat
  /\ (total (weeks s) <= total (weeks s'))%nat
  /\ (total (months s) <= total (months s'))%nat
  /\ (total (years s) <= total (years s'))%nat.
Proof.
  induction cs as [|c cs IH]; intros s s' sg H.
  - cbn in H. injection H as <- <-. cbn. lia.
  - rewrite loop_cons in H.
    assert (E : (total (years (effect o c s)) =
                   total (years s) + if in_years o c then 1 else 0)%nat
                /\ (total (months (effect o c s)) =
                      total (months s) + if in_months o c then 1 else 0)%nat
                /\ (total (weeks (effect o c s)) =
                      total (weeks s) + if in_weeks o c then 1 else 0)%nat)
      by (unfold effect; cbn; now rewrite !total_bump_if).
    destruct E as (Ey & Em & Ew).
    pose proof (in_weeks_months o c) as Hwm.
    pose proof (in_months_years o c) as Hmy.
    cbn [List.filter]. unfold in_years in *.
    assert (B : (length (List.filter (passes o) cs)
                 + (if passes o c then 1 else 0)
                 = length (if passes o c
                           then c :: List.filter (passes o) cs
                           else List.filter (passes o) cs))%nat)
      by (destruct (passes o c); cbn; lia).
    destruct (ending o c).
    + specialize (IH _ _ _ H).
      destruct (in_weeks o c), (in_months o c), (passes o c);
        try (specialize (Hwm eq_refl)); try (specialize (Hmy eq_refl));
        try discriminate; cbn in *; lia.
    + injection H as <- <-.
      destruct (in_weeks o c), (in_months o c), (passes o c);
        try (specialize (Hwm eq_refl)); try (specialize (Hmy eq_refl));
        try discriminate; cbn in *; lia.
Qed.

(** The count of a bucket after a run that ends normally. *)
Lemma loop_counts o cs : forall s s',
  loop o s cs = (s', Next) ->
  forall k,
    count (months s') k =
      (count (months s) k
       + length (List.filter (fun c => in_months o c && String.eqb (month_key c) k) cs))%nat
    /\ count (weeks s') k =
      (count (weeks s) k
       + length (List.filter (fun c => in_weeks o c && String.eqb (week_key c) k) cs))%nat.
Proof.
  induction cs as [|c cs IH]; intros s s' H k.
  - cbn in H. injection H as <-. cbn. lia.
  - rewrite loop_cons in H. destruct (ending o c); [|discriminate].
    destruct (IH _ _ H k) as [Hm Hw]. rewrite Hm, Hw. cbn [List.filter].
    unfold effect. cbn [months weeks]. rewrite !count_bump_if.
    destruct (in_months o c && String.eqb (month_key c) k),
             (in_weeks o c && String.eqb (week_key c) k); cbn; lia.
Qed.

Lemma ending_no_cutoff o c :
  months_since o = None -> weeks_since o = None -> ending o c = Next.
Proof.
  intros Hm Hw. unfold ending. rewrite Hm, Hw. cbn. now destruct (passes o c).
Qed.

Lemma loop_no_cutoff o cs : forall s,
  months_since o = None -> weeks_since o = None ->
  exists s', loop o s cs = (s', Next)
    /\ total (years s') = (total (years s) + length (List.filter (passes o) cs))%nat
    /\ total (months s') = (total (months s) + length (List.filter (passes o) cs))%nat
    /\ total (weeks s') = (total (weeks s) + length (List.filter (passes o) cs))%nat.
Proof.
  induction cs as [|c cs IH]; intros s Hm Hw.
  - exists s. cbn. repeat split; lia.
  - rewrite loop_cons, ending_no_cutoff by assumption.
    destruct (IH (effect o c s) Hm Hw) as (s' & -> & Hy & Hmo & Hwe).
    exists s'. split; [reflexivity|]. rewrite Hy, Hmo, Hwe.
    unfold effect. cbn [years months weeks List.filter]. rewrite !total_bump_if.
    unfold in_years, in_months, in_weeks, month_open, week_open, open.
    rewrite Hm, Hw. cbn. rewrite !andb_true_r.
    destruct (passes o c); cbn; lia.
Qed.

End BucketFacts.

(** ** The table of the all-time aggregator *)

Section TableFacts.

Variables (wiki : Site) (asof since : Bound).

Implicit Types (d : Counter) (u a : string) (users : list string)
  (x : option (list string)).

Lemma weight_incr u d : weight (incr u d) = S (weight d).
Proof.
  unfold weight, list_sum. induction d as [|[k c] d IH]; cbn; [reflexivity|].
  destruct (String.eqb k u); cbn; [reflexivity|]. rewrite IH.
  apply Nat.add_succ_r.
Qed.

Lemma weight_count_contribs x u cs : forall d,
  weight (count_contribs x u cs d) = (weight d + counted_in x cs)%nat.
Proof.
  unfold counted_in.
  induction cs as [|c cs IH]; intros d; cbn [count_contribs List.filter];
    [cbn; lia|].
  destruct (excluded x (title (page c))); cbn [negb length]; [apply IH|].
  rewrite IH, weight_incr. lia.
Qed.

Lemma weight_count_users x users : forall d,
  weight (count_users wiki asof since x users d) =
    (weight d + list_sum (map (tally wiki asof since x) users))%nat.
Proof.
  induction users as [|u users IH]; intros d; cbn [count_users map];
    [cbn; lia|].
  rewrite IH, weight_count_contribs. unfold tally, list_sum. cbn. lia.
Qed.

Lemma list_sum_perm (l l' : list nat) :
  Permutation l l' -> list_sum l = list_sum l'.
Proof.
  unfold list_sum. induction 1; cbn in *; lia.
Qed.

Lemma alltime_weight x :
  list_sum (map fst (alltime wiki asof since x)) =
    weight (active_users wiki asof since x).
Proof.
  unfold alltime, weight. rewrite map_map.
  rewrite (map_ext (fun p => fst (let '(u, c) := p in (c, u))) snd)
    by (now intros [u c]).
  apply list_sum_perm, Permutation_map, sorted_desc_perm.
Qed.

(** Each time the user list names a user, its listing is counted again. *)
Lemma counted_among_occ x users a :
  counted_among wiki asof since x users a =
    (count_occ string_dec users a * tally wiki asof since x a)%nat.
Proof.
  unfold counted_among, list_sum.
  induction users as [|u users IH]; cbn; [reflexivity|]. rewrite IH.
  destruct (String.eqb_spec u a) as [->|Hne].
  - destruct (string_dec a a); [lia|congruence].
  - destruct (string_dec u a); [congruence|lia].
Qed.

Lemma active_user_listed a :
  In a (alltime_active_users wiki) <->
  exists info, In info (allusers wiki) /\ name info = a /\ 0 < editcount info.
Proof.
  unfold alltime_active_users. rewrite in_map_iff. split.
  - intros (info & E & H). apply filter_In in H as [H1 H2].
    exists info. repeat split; auto. lia.
  - intros (info & H1 & E & H2). exists info. split; [assumption|].
    apply filter_In. split; [assumption|]. lia.
Qed.

Lemma descending_split (l : list (string * nat)) pre p mid q post :
  descending l -> l = pre ++ p :: mid ++ q :: post -> (snd q <= snd p)%nat.
Proof.
  intros H ->. induction pre as [|z pre IH]; cbn in H.
  - destruct H as [H _]. rewrite List.Forall_forall in H. apply H.
    apply in_or_app. right. now left.
  - apply IH. tauto.
Qed.

Lemma NoDup_split (l : list string) pre p mid q post :
  List.NoDup l -> l = pre ++ p :: mid ++ q :: post -> p <> q.
Proof.
  intros H -> E. subst q. apply List.NoDup_remove_2 in H. apply H.
  apply in_or_app. right. apply in_or_app. right. now left.
Qed.

Lemma excluded_members x t : excluded x t = true <-> In t (members x).
Proof.
  destruct x as [l|]; cbn; [|split; [discriminate|tauto]].
  destruct l as [|t0 l]; [split; [discriminate|intros []]|].
  rewrite existsb_exists. split.
  - intros (y & Hy & E). apply String.eqb_eq in E. now subst.
  - intros H. exists t. split; [assumption|apply String.eqb_refl].
Qed.

Lemma excluded_same x1 x2 :
  (forall t, In t (members x1) <-> In t (members x2)) ->
  forall t, excluded x1 t = excluded x2 t.
Proof.
  intros H t. apply eq_true_iff_eq. rewrite !excluded_members. apply H.
Qed.

Lemma count_contribs_same x1 x2 u cs :
  (forall t, excluded x1 t = excluded x2 t) ->
  forall d, count_contribs x1 u cs d = count_contribs x2 u cs d.
Proof.
  intros H. induction cs as [|c cs IH]; intros d; cbn; [reflexivity|].
  rewrite H. destruct (excluded x2 _); apply IH.
Qed.

Lemma count_users_same x1 x2 users :
  (forall t, excluded x1 t = excluded x2 t) ->
  forall d, count_users wiki asof since x1 users d =
            count_users wiki asof since x2 users d.
Proof.
  intros H. induction users as [|u users IH]; intros d; cbn; [reflexivity|].
  rewrite IH. f_equal. now apply count_contribs_same.
Qed.

Lemma step_same_excludes (o : Options) x1 x2 s c :
  (forall t, excluded x1 t = excluded x2 t) ->
  step (with_excludes o x1) s c = step (with_excludes o x2) s c.
Proof.
  intros H. unfold step.
  change (not_created (with_excludes o x1) c) with (not_created o c).
  change (not_created (with_excludes o x2) c) with (not_created o c).
  change (is_redirect (with_excludes o x1) c) with (is_redirect o c).
  change (is_redirect (with_excludes o x2) c) with (is_redirect o c).
  unfold is_excluded. cbn [excludes with_excludes months_since weeks_since].
  now rewrite H.
Qed.

Lemma loop_same_excludes (o : Options) x1 x2 cs :
  (forall t, excluded x1 t = excluded x2 t) ->
  forall s, loop (with_excludes o x1) s cs = loop (with_excludes o x2) s cs.
Proof.
  intros H. induction cs as [|c cs IH]; intros s; cbn; [reflexivity|].
  rewrite (step_same_excludes o x1 x2 s c H).
  destruct (step _ s c) as [s1 [|e]]; auto.
Qed.

End TableFacts.

(** ** Splitting the wiki argument *)

Section SplitFacts.

Lemma split_nonempty sep s : split sep s <> [].
Proof.
  destruct s as [|c s]; cbn; [discriminate|].
  destruct (Ascii.eqb c sep); [discriminate|].
  destruct (split sep s); discriminate.
Qed.

Lemma split_no_sep sep s : occurs sep s = false -> split sep s = [s].
Proof.
  induction s as [|c s IH]; cbn; [reflexivity|].
  destruct (Ascii.eqb c sep); cbn; [discriminate|].
  intros H. now rewrite (IH H).
Qed.

Lemma split_at_sep sep a b :
  occurs sep a = false ->
  split sep (a +:+ String sep b) = a :: split sep b.
Proof.
  induction a as [|c a IH]; intros H.
  - change (EmptyString +:+ String sep b) with (String sep b).
    cbn. now rewrite Ascii.eqb_refl.
  - change (String c a +:+ String sep b) with (String c (a +:+ String sep b)).
    cbn in *. destruct (Ascii.eqb c sep); [discriminate|]. cbn in H.
    now rewrite (IH H).
Qed.

Lemma index_split_1 sep s :
  (occurs sep s = false -> index (split sep s) 1 = Raise IndexError)
  /\ (occurs sep s = true -> exists p, index (split sep s) 1 = Val p).
Proof.
  unfold index. induction s as [|c s [IH1 IH2]]; cbn.
  - split; [reflexivity|discriminate].
  - destruct (Ascii.eqb c sep); cbn.
    + split; [discriminate|]. intros _.
      destruct (split sep s) as [|p ps] eqn:E;
        [now apply split_nonempty in E|]. now exists p.
    + destruct (split sep s) as [|p ps] eqn:E;
        [now apply split_nonempty in E|]. cbn in *. split; auto.
Qed.

Lemma index_split_0 sep s : exists p, index (split sep s) 0 = Val p.
Proof.
  unfold index. destruct (split sep s) as [|p ps] eqn:E;
    [now apply split_nonempty in E|]. now exists p.
Qed.

Lemma peruser_exn wiki username asof since namespaces o e :
  peruser wiki username asof since namespaces o = Raise e -> e = ValueError.
Proof.
  unfold peruser, run.
  destruct (loop o empty_stats _) as [s' [|e']] eqn:E; [discriminate|].
  intros [= <-]. eauto using loop_exn.
Qed.

End SplitFacts.

(** ** The pattern of the redirect test *)

Section PatternFacts.

Implicit Types (r : regex) (t : text) (p : N -> bool).

Lemma re_match_iff r t : re_match r t = true <-> exists t', In t' (rests r t).
Proof.
  unfold re_match. destruct (rests r t) as [|t1 l]; split.
  - discriminate.
  - intros (t' & []).
  - intros _. exists t1. now left.
  - reflexivity.
Qed.

Lemma In_seq r1 r2 t t2 :
  In t2 (rests (Seq r1 r2) t) <->
  exists t1, In t1 (rests r1 t) /\ In t2 (rests r2 t1).
Proof. cbn. apply in_flat_map. Qed.

Lemma In_chr p t t' :
  In t' (rests (Chr p) t) <-> exists c, t = c :: t' /\ p c = true.
Proof.
  cbn. destruct t as [|c t]; [split; [intros []|intros (c & E & _); discriminate]|].
  destruct (p c) eqn:Hp; split.
  - intros [<-|[]]. now exists c.
  - intros (c' & [= <- <-] & _). now left.
  - intros [].
  - intros (c' & [= <- <-] & Hp'). congruence.
Qed.

Lemma In_star p t t' :
  In t' (star_rests p t) <->
  exists ws, t = ws ++ t' /\ Forall (fun c => p c = true) ws.
Proof.
  revert t'. induction t as [|c t IH]; intros t'; cbn.
  - split.
    + intros [<-|[]]. exists []. now split.
    + intros (ws & E & _). symmetry in E. apply app_eq_nil in E as [_ ->]. now left.
  - split.
    + intros [<-|H]; [exists []; now split|].
      destruct (p c) eqn:Hp; [|destruct H].
      apply IH in H as (ws & -> & Hws). exists (c :: ws). split; [reflexivity|].
      now constructor.
    + intros ([|c' ws] & E & Hws); cbn in E; [left; congruence|].
      injection E as <- ->. apply List.Forall_cons_iff in Hws as [Hc Hws].
      right. rewrite Hc. apply IH. eauto.
Qed.

Lemma In_word w : forall t t',
  In t' (rests (word_i w) t) <-> exists m, t = m ++ t' /\ spells w m.
Proof.
  unfold spells. induction w as [|p w IH]; intros t t'; cbn [word_i].
  - cbn. split.
    + intros [<-|[]]. exists []. split; [reflexivity|constructor].
    + intros (m & -> & H). inversion H. now left.
  - rewrite In_seq. split.
    + intros (t1 & H1 & H2). apply In_chr in H1 as (c & -> & Hc).
      apply IH in H2 as (m & -> & Hm). exists (c :: m). split; [reflexivity|].
      now constructor.
    + intros (m & -> & H). inversion H as [|? c ? m' Hc Hm]; subst.
      exists (m' ++ t'). split; [apply In_chr; now exists c|].
      apply IH. eauto.
Qed.

Lemma spells_hash m : spells (codes "#") m <-> m = [0x23%N].
Proof.
  unfold spells. split.
  - intros H. inversion H as [|? c ? m' Hc Hm]; subst. inversion Hm; subst.
    f_equal. unfold accepts in Hc. cbn in Hc. rewrite orb_false_r, orb_diag in Hc.
    now apply N.eqb_eq in Hc.
  - intros ->. repeat constructor.
Qed.

Lemma spells_brackets m : spells (codes "[[") m <-> m = [0x5B%N; 0x5B%N].
Proof.
  unfold spells. split.
  - intros H. inversion H as [|? c1 ? m1 Hc1 Hm1]; subst.
    inversion Hm1 as [|? c2 ? m2 Hc2 Hm2]; subst. inversion Hm2; subst.
    unfold accepts in Hc1, Hc2. cbn in Hc1, Hc2.
    rewrite orb_false_r, orb_diag in Hc1, Hc2.
    apply N.eqb_eq in Hc1, Hc2. now subst.
  - intros ->. repeat constructor.
Qed.

(** The texts the redirect test holds for. *)
Lemma redirect_shape t :
  re_match redirect_re t = true <->
  exists ws kw sp rest,
    t = ws ++ 0x23%N :: kw ++ sp ++ 0x5B%N :: 0x5B%N :: rest
    /\ Forall (fun c => space c = true) ws
    /\ (spells vizh kw \/ spells (codes "redirect") kw)
    /\ sp <> [] /\ Forall (fun c => space c = true) sp.
Proof.
  rewrite re_match_iff. unfold redirect_re, plus. split.
  - intros (t' & H).
    apply In_seq in H as (t1 & H1 & H). apply In_star in H1 as (ws & -> & Hws).
    apply In_seq in H as (t2 & H2 & H). apply In_word in H2 as (h & -> & Hh).
    apply spells_hash in Hh as ->.
    apply In_seq in H as (t3 & H3 & H).
    apply In_seq in H as (t4 & H4 & H).
    apply In_seq in H4 as (t5 & H5 & H4).
    apply In_chr in H5 as (c & -> & Hc).
    apply In_star in H4 as (sp & -> & Hsp).
    apply In_word in H as (b & -> & Hb). apply spells_brackets in Hb as ->.
    assert (K : exists kw, t2 = kw ++ c :: sp ++ [0x5B%N; 0x5B%N] ++ t'
                           /\ (spells vizh kw \/ spells (codes "redirect") kw)).
    { cbn [rests] in H3. apply in_app_or in H3 as [H3|H3];
        apply In_word in H3 as (kw & -> & Hkw); exists kw; auto. }
    destruct K as (kw & -> & Hkw).
    exists ws, kw, (c :: sp), t'. repeat split; auto; discriminate.
  - intros (ws & kw & sp & rest & -> & Hws & Hkw & Hne & Hsp).
    destruct sp as [|c sp]; [congruence|].
    apply List.Forall_cons_iff in Hsp as [Hc Hsp].
    exists rest.
    apply In_seq. exists (0x23%N :: kw ++ (c :: sp) ++ 0x5B%N :: 0x5B%N :: rest).
    split; [apply In_star; eauto|].
    apply In_seq. exists (kw ++ (c :: sp) ++ 0x5B%N :: 0x5B%N :: rest).
    split; [apply In_word; exists [0x23%N]; split; [reflexivity|now apply spells_hash]|].
    apply In_seq. exists ((c :: sp) ++ 0x5B%N :: 0x5B%N :: rest). split.
    { cbn [rests]. apply in_or_app.
      destruct Hkw as [Hkw|Hkw]; [left|right]; apply In_word; eauto. }
    apply In_seq. exists (0x5B%N :: 0x5B%N :: rest). split.
    + apply In_seq. exists (sp ++ 0x5B%N :: 0x5B%N :: rest). split.
      * apply In_chr. now exists c.
      * apply In_star. eauto.
    + apply In_word. exists [0x5B%N; 0x5B%N]. split; [reflexivity|].
      now apply spells_brackets.
Qed.

End PatternFacts.

Section KeywordFacts.

Lemma spells_length w m : spells w m -> length m = length w.
Proof. unfold spells. induction 1; cbn; congruence. Qed.

Lemma space_prefix_unique (ws ws' : text) (a a' : N) (t t' : text) :
  Forall (fun c => space c = true) ws ->
  Forall (fun c => space c = true) ws' ->
  space a = false -> space a' = false ->
  ws ++ a :: t = ws' ++ a' :: t' -> ws = ws' /\ a = a' /\ t = t'.
Proof.
  intros H. revert ws'. induction H as [|c ws Hc _ IH]; intros ws' H' Ha Ha' E.
  - destruct H' as [|c' ws' Hc' _]; cbn in E.
    + injection E as -> ->. auto.
    + injection E as -> _. congruence.
  - destruct H' as [|c' ws' Hc' H']; cbn in E.
    + injection E as <- _. congruence.
    + injection E as <- E. destruct (IH ws' H' Ha Ha' E) as (-> & -> & ->). auto.
Qed.

(** No character is accepted both by the first letter of the Bulgarian
    keyword and by the first letter of "redirect". *)
Lemma first_letters_apart (c : N) :
  accepts 0x432%N c = true -> accepts 0x72%N c = true -> False.
Proof.
  unfold accepts. cbn. rewrite !orb_true_iff, !N.eqb_eq.
  intuition (try discriminate; lia).
Qed.

Lemma keyword_with_tail (kw kw' t t' : text) :
  (spells vizh kw \/ spells (codes "redirect") kw) ->
  (spells vizh kw' \/ spells (codes "redirect") kw') ->
  kw ++ t = kw' ++ t' -> kw = kw' /\ t = t'.
Proof.
  intros [H|H] [H'|H'] E.
  1, 4: apply app_inj_1; [|assumption];
        apply spells_length in H, H'; congruence.
  - exfalso. unfold spells in H, H'.
    inversion H as [|? c ? m Hc _]; subst. inversion H' as [|? c' ? m' Hc' _]; subst.
    cbn in E. injection E as -> _. eauto using first_letters_apart.
  - exfalso. unfold spells in H, H'.
    inversion H as [|? c ? m Hc _]; subst. inversion H' as [|? c' ? m' Hc' _]; subst.
    cbn in E. injection E as -> _. eauto using first_letters_apart.
Qed.

(** With the brackets right after the keyword the test does not hold. *)
Lemma no_space_no_redirect (ws kw rest : text) :
  Forall (fun c => space c = true) ws ->
  (spells vizh kw \/ spells (codes "redirect") kw) ->
  re_match redirect_re (ws ++ 0x23%N :: kw ++ 0x5B%N :: 0x5B%N :: rest) = false.
Proof.
  intros Hws Hkw. apply not_true_is_false. intros H.
  apply redirect_shape in H as (ws' & kw' & sp & rest' & E & Hws' & Hkw' & Hne & Hsp).
  apply space_prefix_unique in E as (_ & _ & E); [|assumption..|reflexivity|reflexivity].
  apply keyword_with_tail in E as [_ E]; [|assumption..].
  destruct sp as [|c sp]; [congruence|]. cbn in E. injection E as <- _.
  apply List.Forall_cons_iff in Hsp as [Hc _]. discriminate.
Qed.

End KeywordFacts.

(** ** Dates and the parts of a key *)

Section DateFacts.

Ltac to_nat_consts :=
  repeat match goal with
    | H : context [Z.to_nat ?k] |- _ =>
        let v := eval vm_compute in (Z.to_nat k) in
        change (Z.to_nat k) with v in H
    | |- context [Z.to_nat ?k] =>
        let v := eval vm_compute in (Z.to_nat k) in
        change (Z.to_nat k) with v
    end.

Lemma leap_cases y : (is_leap y = true \/ is_leap y = false).
Proof. destruct (is_leap y); auto. Qed.

Lemma day_of_year t :
  valid_date t ->
  1 <= days_before_month (year t) (month t) + day t
    <= 365 + (if is_leap (year t) then 1 else 0).
Proof.
  unfold valid_date, days_in_month, days_before_month.
  generalize (month t) (day t) (is_leap (year t)). intros m d b (Hy & Hm & Hd).
  assert (M : m = 1 \/ m = 2 \/ m = 3 \/ m = 4 \/ m = 5 \/ m = 6 \/ m = 7
              \/ m = 8 \/ m = 9 \/ m = 10 \/ m = 11 \/ m = 12) by lia.
  destruct b; intuition (subst m; to_nat_consts; cbn in *; lia).
Qed.

Lemma mod_100_4 y : y mod 100 = 0 -> y mod 4 = 0.
Proof.
  intros H. rewrite <- (Z.mod_mod_divide y 100 4) by (now exists 25).
  now rewrite H.
Qed.

Lemma mod_400_100 y : y mod 400 = 0 -> y mod 100 = 0.
Proof.
  intros H. rewrite <- (Z.mod_mod_divide y 400 100) by (now exists 4).
  now rewrite H.
Qed.

Lemma year_length y :
  days_before_year (y + 1) - days_before_year y
  = 365 + (if is_leap y then 1 else 0).
Proof.
  unfold days_before_year, is_leap. cbv zeta.
  replace (y + 1 - 1) with y by lia.
  pose proof (mod_100_4 y). pose proof (mod_400_100 y).
  destruct (Z.eqb_spec (y mod 4) 0), (Z.eqb_spec (y mod 100) 0),
           (Z.eqb_spec (y mod 400) 0); cbn [andb orb negb]; try tauto;
    Z.div_mod_to_equations; lia.
Qed.

Lemma week1_monday y :
  let f := days_before_year y + 1 in
  f - 3 <= isoweek1monday y <= f + 3 /\ (isoweek1monday y) mod 7 = 1.
Proof.
  unfold isoweek1monday, ymd2ord. cbv zeta.
  assert (E : days_before_month y 1 = 0) by reflexivity. rewrite E. clear E.
  replace (days_before_year y + 0 + 1) with (days_before_year y + 1) by lia.
  generalize (days_before_year y + 1). intros f.
  destruct (Z.ltb_spec 3 ((f + 6) mod 7)); Z.div_mod_to_equations; lia.
Qed.

Lemma iso_week_bounds t : valid_date t -> 1 <= iso_week t <= 53.
Proof.
  intros Hv. pose proof (day_of_year t Hv) as Hd.
  unfold iso_week, isocalendar, ymd2ord.
  pose proof (week1_monday (year t)) as [W1 M1].
  pose proof (week1_monday (year t - 1)) as [W0 M0].
  pose proof (week1_monday (year t + 1)) as [W2 M2].
  pose proof (year_length (year t)) as L1.
  pose proof (year_length (year t - 1)) as L0.
  replace (year t - 1 + 1) with (year t) in L0 by lia.
  cbn zeta in *.
  set (w1 := isoweek1monday (year t)) in *.
  set (w0 := isoweek1monday (year t - 1)) in *.
  set (w2 := isoweek1monday (year t + 1)) in *.
  set (today := days_before_year (year t) + days_before_month (year t) (month t) + day t).
  assert (T : days_before_year (year t) + 1 <= today
              <= days_before_year (year t) + 365 + (if is_leap (year t) then 1 else 0))
    by (unfold today; lia).
  clearbody today w0 w1 w2.
  destruct (Z.ltb_spec ((today - w1) / 7) 0); cbn [fst snd].
  - destruct (is_leap (year t)), (is_leap (year t - 1));
      Z.div_mod_to_equations; lia.
  - destruct (Z.leb_spec 52 ((today - w1) / 7)); cbn [andb].
    + destruct (Z.leb_spec w2 today); cbn [fst snd];
        destruct (is_leap (year t)), (is_leap (year t - 1));
        Z.div_mod_to_equations; lia.
    + cbn [fst snd]. Z.div_mod_to_equations; lia.
Qed.

Lemma two_digits_checked :
  forallb (fun k =>
             let w := Z.of_nat k in
             Nat.eqb (String.length (zfill 2 (str w))) 2
             && all_digits (zfill 2 (str w))
             && match int (zfill 2 (str w)) with
                | Val v => v =? w
                | Raise _ => false
                end)
          (seq 0 100) = true.
Proof. vm_compute. reflexivity. Qed.

(** A number below 100 on two digits reads back as itself. *)
Lemma two_digits w :
  0 <= w <= 99 ->
  String.length (zfill 2 (str w)) = 2%nat
  /\ all_digits (zfill 2 (str w)) = true
  /\ int (zfill 2 (str w)) = Val w.
Proof.
  intros Hw. pose proof two_digits_checked as H.
  rewrite forallb_forall in H. specialize (H (Z.to_nat w)).
  rewrite Z2Nat.id in H by lia. cbv zeta in H.
  assert (Hin : In (Z.to_nat w) (seq 0 100)) by (apply in_seq; lia).
  apply H in Hin. apply andb_true_iff in Hin as [Hin H3].
  apply andb_true_iff in Hin as [H1 H2]. apply Nat.eqb_eq in H1.
  repeat split; auto.
  destruct (int (zfill 2 (str w))); [|discriminate].
  apply Z.eqb_eq in H3. now subst.
Qed.

End DateFacts.

(** ** The printed table *)

Section PrintFacts.

Import DecimalString.

Lemma str_nonneg n :
  0 <= n ->
  exists d, d <> Decimal.Nil /\ Z.to_int n = Decimal.Pos d
            /\ str n = NilEmpty.string_of_uint d.
Proof.
  intros Hn. unfold str. destruct n as [|p|p]; [| |lia].
  - exists (Decimal.D0 Decimal.Nil). repeat split. discriminate.
  - exists (Pos.to_uint p). split; [apply DecimalPos.Unsigned.to_uint_nonnil|].
    split; [reflexivity|]. cbn [Z.to_int NilZero.string_of_int].
    unfold NilZero.string_of_uint.
    pose proof (DecimalPos.Unsigned.to_uint_nonnil p).
    destruct (Pos.to_uint p); [congruence|reflexivity..].
Qed.

Lemma str_inj n m : 0 <= n -> 0 <= m -> str n = str m -> n = m.
Proof.
  intros Hn Hm E.
  destruct (str_nonneg n Hn) as (dn & _ & Tn & Sn).
  destruct (str_nonneg m Hm) as (dm & _ & Tm & Sm).
  rewrite Sn, Sm in E. apply (f_equal NilEmpty.uint_of_string) in E.
  rewrite !NilEmpty.usu in E. injection E as ->.
  rewrite <- (DecimalZ.of_to n), <- (DecimalZ.of_to m). congruence.
Qed.

Lemma all_digits_cons ch s :
  all_digits (String ch s) = true ->
  ch <> " "%char /\ all_digits s = true.
Proof.
  unfold all_digits. cbn. intros [H1 H2]%andb_true_iff. split; [|exact H2].
  intros ->. discriminate.
Qed.

Lemma digits_then_space a : forall b u v,
  all_digits a = true -> all_digits b = true ->
  a +:+ String " " u = b +:+ String " " v -> a = b /\ u = v.
Proof.
  induction a as [|ch a IH]; intros [|ch' b] u v Ha Hb E.
  - change (String " " u = String " " v) in E. injection E as ->. auto.
  - change (String " " u = String ch' (b +:+ String " " v)) in E.
    injection E as <- _. apply all_digits_cons in Hb as [Hb _]. congruence.
  - change (String ch (a +:+ String " " u) = String " " v) in E.
    injection E as -> _. apply all_digits_cons in Ha as [Ha _]. congruence.
  - change (String ch (a +:+ String " " u) = String ch' (b +:+ String " " v)) in E.
    injection E as <- E.
    apply all_digits_cons in Ha as [_ Ha]. apply all_digits_cons in Hb as [_ Hb].
    destruct (IH b u v Ha Hb E) as [-> ->]. auto.
Qed.

Lemma printed_line_inj p q : printed_line p = printed_line q -> p = q.
Proof.
  destruct p as [c u], q as [c' u']. unfold printed_line. cbn [fst snd].
  change (" " +:+ u) with (String " " u). change (" " +:+ u') with (String " " u').
  intros E. apply digits_then_space in E as [E ->];
    [|apply str_digits; lia..].
  apply str_inj in E; [|lia..]. f_equal. lia.
Qed.

End PrintFacts.

(** ** Further properties of the code *)



(** X2: a run reads a cutoff only up to its first dash: two month
    cutoffs, and two week cutoffs, with the same text before the dash
    give the same run, stats and failure alike. *)
Theorem cutoff_read_up_to_dash (o : Options) (m1 m2 w1 w2 : string)
    (s : Stats) (cs : list Contrib) :
  truthy_str m1 = true -> truthy_str m2 = true -> year_part m1 = year_part m2 ->
  truthy_str w1 = true -> truthy_str w2 = true -> year_part w1 = year_part w2 ->
  loop (with_cutoffs o (Some m1) (Some w1)) s cs =
  loop (with_cutoffs o (Some m2) (Some w2)) s cs.
Proof.
  intros. apply loop_same_cutoffs; intros; now apply gate_same_year_part.
Qed.

Lemma cutoff_read_up_to_dash_witness :
  year_part "2020-01" = year_part "2020-12"
  /\ year_part "2020-01" = year_part "2020-53"
  /\ loop (with_cutoffs defaults (Some "2020-01") (Some "2020-01")) empty_stats
       [edit plain 2020 6 1; edit plain 2019 6 1] =
     loop (with_cutoffs defaults (Some "2020-12") (Some "2020-53")) empty_stats
       [edit plain 2020 6 1; edit plain 2019 6 1].
Proof.
  split; [reflexivity|]. split; [reflexivity|].
  exact (cutoff_read_up_to_dash defaults "2020-01" "2020-12" "2020-01" "2020-53"
           empty_stats _ eq_refl eq_refl eq_refl eq_refl eq_refl eq_refl).
Defined.



(** X4: however a run of the per-user loop ends, the weeks buckets
    together hold no more than the months buckets, these no more than the
    years buckets, and these no more than there are contributions that
    pass the filters; without cutoffs the run ends normally and the three
    sums all equal that number. *)
Theorem bucket_totals (o : Options) (cs : list Contrib) (s' : Stats)
    (sg : signal) :
  loop o empty_stats cs = (s', sg) ->
  ((total (weeks s') <= total (months s'))%nat
   /\ (total (months s') <= total (years s'))%nat
   /\ (total (years s') <= length (List.filter (passes o) cs))%nat)
  /\ (months_since o = None -> weeks_since o = None ->
      sg = Next
      /\ total (years s') = length (List.filter (passes o) cs)
      /\ total (months s') = length (List.filter (passes o) cs)
      /\ total (weeks s') = length (List.filter (passes o) cs)).
Proof.
  intros H. split.
  - pose proof (loop_totals o cs _ _ _ H) as T. cbn [years months weeks empty_stats] in T.
    rewrite total_empty in T. lia.
  - intros Hm Hw.
    destruct (loop_no_cutoff o cs empty_stats Hm Hw) as (s1 & E & Hy & Hmo & Hwe).
    rewrite E in H. injection H as <- <-.
    cbn [years months weeks empty_stats] in *. rewrite total_empty in *.
    repeat split; assumption.
Qed.

Lemma bucket_totals_witness :
  total (weeks (fst (loop (with_months "2020-01") empty_stats
                       [edit plain 2019 6 15; edit plain 2020 6 15;
                        edit redirect 2020 7 1]))) = 1%nat
  /\ total (years (fst (loop (with_months "2020-01") empty_stats
                          [edit plain 2019 6 15; edit plain 2020 6 15;
                           edit redirect 2020 7 1]))) = 2%nat
  /\ (total (weeks (fst (loop (with_months "2020-01") empty_stats
                           [edit plain 2019 6 15; edit plain 2020 6 15;
                            edit redirect 2020 7 1])))
      <= total (months (fst (loop (with_months "2020-01") empty_stats
                               [edit plain 2019 6 15; edit plain 2020 6 15;
                                edit redirect 2020 7 1]))))%nat.
Proof.
  split; [reflexivity|]. split; [reflexivity|].
  exact (proj1 (proj1 (bucket_totals (with_months "2020-01")
                         [edit plain 2019 6 15; edit plain 2020 6 15;
                          edit redirect 2020 7 1] _ _ eq_refl))).
Defined.

(** X5: after a run that ends normally, the count under a month key is
    the number of contributions with that key that pass the filters and
    that the month cutoff lets through; the count under a week key is the
    number of those with that key that both cutoffs let through. *)
Theorem bucket_counts (o : Options) (cs : list Contrib) (s' : Stats)
    (k : string) :
  loop o empty_stats cs = (s', Next) ->
  count (months s') k =
    length (List.filter
              (fun c => passes o c && month_open o c
                        && String.eqb (month_key c) k) cs)
  /\ count (weeks s') k =
    length (List.filter
              (fun c => passes o c && month_open o c && week_open o c
                        && String.eqb (week_key c) k) cs).
Proof.
  intros H. destruct (loop_counts o cs _ _ H k) as [Hm Hw].
  rewrite Hm, Hw. split; reflexivity.
Qed.

Lemma bucket_counts_witness :
  snd (loop (with_weeks "2020-01") empty_stats
         [edit plain 2020 6 15; edit plain 2020 6 20; edit plain 2019 6 15]) = Next
  /\ count (months (fst (loop (with_weeks "2020-01") empty_stats
                           [edit plain 2020 6 15; edit plain 2020 6 20;
                            edit plain 2019 6 15]))) "2020 06" = 2%nat
  /\ count (weeks (fst (loop (with_weeks "2020-01") empty_stats
                          [edit plain 2020 6 15; edit plain 2020 6 20;
                           edit plain 2019 6 15]))) "2019 24" = 0%nat.
Proof.
  assert (E : loop (with_weeks "2020-01") empty_stats
                [edit plain 2020 6 15; edit plain 2020 6 20; edit plain 2019 6 15] =
              (fst (loop (with_weeks "2020-01") empty_stats
                      [edit plain 2020 6 15; edit plain 2020 6 20;
                       edit plain 2019 6 15]), Next))
    by (vm_compute; reflexivity).
  split; [reflexivity|]. split.
  - rewrite (proj1 (bucket_counts (with_weeks "2020-01") _ _ "2020 06" E)).
    reflexivity.
  - rewrite (proj2 (bucket_counts (with_weeks "2020-01") _ _ "2019 24" E)).
    reflexivity.
Defined.

(** X6: a run of the per-user loop that ends normally gives the same
    stats for every order of the contributions. *)
Theorem order_of_contributions (o : Options) (cs cs' : list Contrib)
    (s s' : Stats) :
  Permutation cs cs' ->
  loop o s cs = (s', Next) -> loop o s cs' = (s', Next).
Proof. intros P. now apply loop_permutation. Qed.

Lemma order_of_contributions_witness :
  loop (with_months "2020-01") empty_stats
    [edit plain 2021 6 15; edit plain 2019 6 15] =
  loop (with_months "2020-01") empty_stats
    [edit plain 2019 6 15; edit plain 2021 6 15].
Proof.
  symmetry.
  rewrite (order_of_contributions (with_months "2020-01")
             [edit plain 2021 6 15; edit plain 2019 6 15]
             [edit plain 2019 6 15; edit plain 2021 6 15]
             empty_stats _ (perm_swap _ _ _) eq_refl).
  reflexivity.
Defined.

(** X7: the table of the all-time aggregator has a line for a user
    exactly when the user has a counted contribution, and the line shows
    their number: the contributions of the user's listing that are not
    excluded, times the number of entries with more than zero edits that
    [allusers] has under that name. *)
Theorem alltime_lines (wiki : Site) (asof since : Bound)
    (x : option (list string)) (c : nat) (u : string) :
  (In (c, u) (alltime wiki asof since x) <->
   (0 < c)%nat
   /\ c = (count_occ string_dec (alltime_active_users wiki) u
           * length (List.filter
                       (fun k => negb (excluded x (title (page k))))
                       (Alltime.user_contributions wiki asof since u)))%nat)
  /\ (In (c, u) (alltime wiki asof since x) ->
      exists info, In info (allusers wiki) /\ name info = u
                   /\ 0 < editcount info).
Proof.
  assert (E : In (c, u) (alltime wiki asof since x) <->
              (0 < c)%nat
              /\ c = (count_occ string_dec (alltime_active_users wiki) u
                      * tally wiki asof since x u)%nat).
  { rewrite In_alltime, In_active_users. unfold counted.
    rewrite counted_among_occ. tauto. }
  split; [exact E|].
  intros H. apply E in H as [Hc ->]. apply active_user_listed.
  apply (count_occ_In string_dec). nia.
Qed.

(** X8: in the table of the all-time aggregator a line never has a
    larger count than a line above it, and no user has two lines. *)
Theorem alltime_sorted_distinct (wiki : Site) (asof since : Bound)
    (x : option (list string)) (pre mid post : list (nat * string))
    (c1 c2 : nat) (u1 u2 : string) :
  alltime wiki asof since x = pre ++ (c1, u1) :: mid ++ (c2, u2) :: post ->
  (c2 <= c1)%nat /\ u1 <> u2.
Proof.
  intros H.
  assert (E : sorted_desc (active_users wiki asof since x) =
              map (fun '(c, u) => (u, c)) pre ++ (u1, c1)
                :: map (fun '(c, u) => (u, c)) mid ++ (u2, c2)
                :: map (fun '(c, u) => (u, c)) post).
  { apply (f_equal (map (fun '(c, u) => (u, c)))) in H.
    unfold alltime in H. rewrite map_map in H.
    rewrite (map_ext _ id) in H by (now intros [a b]).
    rewrite map_id in H. rewrite H, map_app. cbn. now rewrite map_app. }
  split.
  - exact (descending_split _ _ (u1, c1) _ (u2, c2) _ (descending_sorted _) E).
  - pose proof (active_users_wf wiki asof since x) as [Hnd _].
    assert (Hnd' : List.NoDup (keys (sorted_desc (active_users wiki asof since x)))).
    { unfold keys. eapply Permutation_NoDup; [|exact Hnd].
      apply Permutation_map. symmetry. apply sorted_desc_perm. }
    unfold keys in Hnd'. rewrite E in Hnd'.
    eapply NoDup_split; [exact Hnd'|].
    rewrite map_app. cbn. rewrite map_app. reflexivity.
Qed.

Lemma alltime_sorted_distinct_witness :
  alltime club NoBound NoBound None =
    [] ++ (5%nat, "Alice") :: [(5%nat, "Bob")] ++ (2%nat, "Carol") :: []
  /\ (2 <= 5)%nat /\ "Alice" <> "Carol".
Proof.
  assert (E : alltime club NoBound NoBound None =
              [] ++ (5%nat, "Alice") :: [(5%nat, "Bob")] ++ (2%nat, "Carol") :: [])
    by reflexivity.
  split; [exact E|].
  exact (alltime_sorted_distinct club NoBound NoBound None _ _ _ _ _ _ _ E).
Defined.

(** X9: the counts of the table of the all-time aggregator add up to the
    number of contributions, over the listings of all users with more
    than zero edits, whose page is not excluded. *)
Theorem alltime_total (wiki : Site) (asof since : Bound)
    (x : option (list string)) :
  list_sum (map fst (alltime wiki asof since x)) =
  list_sum (map (fun u =>
                   length (List.filter
                             (fun k => negb (excluded x (title (page k))))
                             (Alltime.user_contributions wiki asof since u)))
                (alltime_active_users wiki)).
Proof.
  rewrite alltime_weight. unfold active_users.
  rewrite weight_count_users. reflexivity.
Qed.

(** X10: an exclusion list is used as a set: two lists with the same
    titles, in any order and number, give the same table and the same
    per-user run, and the empty list is the same as none. *)
Theorem exclusion_is_a_set (x1 x2 : option (list string)) :
  (forall t, In t (members x1) <-> In t (members x2)) ->
  (forall wiki asof since,
     alltime wiki asof since x1 = alltime wiki asof since x2)
  /\ (forall o s cs,
        loop (with_excludes o x1) s cs = loop (with_excludes o x2) s cs).
Proof.
  intros H. pose proof (excluded_same x1 x2 H) as E. split.
  - intros wiki asof since. unfold alltime, active_users.
    now rewrite (count_users_same wiki asof since x1 x2 _ E).
  - intros o s cs. now apply loop_same_excludes.
Qed.

Lemma exclusion_is_a_set_witness :
  alltime club NoBound NoBound (Some ["Sofia"; "Sandbox"; "Sofia"]) =
  alltime club NoBound NoBound (Some ["Sandbox"; "Sofia"])
  /\ loop (with_excludes defaults (Some [])) empty_stats [edit plain 2020 1 1] =
     loop (with_excludes defaults None) empty_stats [edit plain 2020 1 1].
Proof.
  split.
  - apply (proj1 (exclusion_is_a_set (Some ["Sofia"; "Sandbox"; "Sofia"])
                    (Some ["Sandbox"; "Sofia"])
                    ltac:(cbn; intros t; tauto))).
  - apply (proj2 (exclusion_is_a_set (Some []) None ltac:(cbn; intros t; tauto))).
Defined.

Lemma alltime_lines_witness :
  In (5%nat, "Alice") (alltime club NoBound NoBound None)
  /\ exists info, In info (allusers club) /\ name info = "Alice"
                  /\ 0 < editcount info.
Proof.
  assert (H : In (5%nat, "Alice") (alltime club NoBound NoBound None))
    by (apply (proj1 (alltime_lines club NoBound NoBound None 5 "Alice"));
        split; [lia|reflexivity]).
  split; [exact H|].
  exact (proj2 (alltime_lines club NoBound NoBound None 5 "Alice") H).
Defined.

(** X11: [main] fails with [IndexError] exactly when the wiki argument
    has no dot; no other part of it can raise that exception. *)
Theorem main_site_error (pwb_Site : string -> string -> Site) (args : Args) :
  main pwb_Site args = Raise IndexError <-> occurs "." (wiki args) = false.
Proof.
  unfold main.
  destruct (index_split_0 "." (wiki args)) as [lang ->]. cbn.
  destruct (index_split_1 "." (wiki args)) as [H1 H2].
  destruct (occurs "." (wiki args)).
  - destruct (H2 eq_refl) as [fam ->]. cbn. split; [|discriminate].
    destruct (totals args); [discriminate|].
    destruct (peruser _ _ _ _ _ _) as [s|e] eqn:E; cbn; [discriminate|].
    intros [= ->]. apply peruser_exn in E. discriminate.
  - rewrite (H1 eq_refl). cbn. tauto.
Qed.

Lemma main_site_error_witness :
  occurs "." (wiki dotless_args) = false
  /\ main resolver dotless_args = Raise IndexError.
Proof.
  split; [reflexivity|].
  exact (proj2 (main_site_error resolver dotless_args) eq_refl).
Defined.

(** X12: [main] takes the text of the wiki argument before its first
    dot as the language and the text between the first and the second
    dot as the family; what follows a second dot is ignored. *)
Theorem main_site_resolution (pwb_Site : string -> string -> Site)
    (args : Args) (lang fam tail : string) :
  occurs "." lang = false -> occurs "." fam = false ->
  wiki args = lang +:+ "." +:+ fam
  \/ wiki args = lang +:+ "." +:+ fam +:+ "." +:+ tail ->
  main pwb_Site args =
    if totals args then
      Val (Totals (alltime (pwb_Site lang fam) (bound_of (asof args))
                     (bound_of (Main.since args)) (exclude_pages args)))
    else
      s ← peruser (pwb_Site lang fam) (default EmptyString (user args))
            (bound_of (asof args)) (bound_of (Main.since args)) (namespace args)
            {| months_since := month_stats_since args;
               weeks_since := week_stats_since args;
               Peruser.created_only := Main.created_only args;
               Peruser.include_redirects := Main.include_redirects args;
               excludes := exclude_pages args |};
      Val (UserStats s).
Proof.
  intros Hl Hf E. unfold main.
  assert (S : exists rest, split "." (wiki args) = lang :: fam :: rest).
  { destruct E as [-> | ->].
    - change (lang +:+ "." +:+ fam) with (lang +:+ String "." fam).
      rewrite (split_at_sep "." lang _ Hl), (split_no_sep "." fam Hf).
      now exists [].
    - change (lang +:+ "." +:+ fam +:+ "." +:+ tail)
        with (lang +:+ String "." (fam +:+ String "." tail)).
      rewrite (split_at_sep "." lang _ Hl), (split_at_sep "." fam _ Hf). eauto. }
  destruct S as [rest ->]. reflexivity.
Qed.

Lemma main_site_resolution_witness :
  occurs "." "bg" = false /\ occurs "." "wikipedia" = false
  /\ main resolver org_args = Val (Totals [(1%nat, "Alice")]).
Proof.
  split; [reflexivity|]. split; [reflexivity|].
  rewrite (main_site_resolution resolver org_args "bg" "wikipedia" "org"
             eq_refl eq_refl (or_intror eq_refl)).
  reflexivity.
Defined.

(** X13: the redirect test holds exactly for the texts made of optional
    white space, "#", one of the two keywords in any case, at least one
    white-space character, and "[[". *)
Theorem redirect_test_shape (t : text) :
  re_match redirect_re t = true <->
  exists ws kw sp rest,
    t = ws ++ 0x23%N :: kw ++ sp ++ 0x5B%N :: 0x5B%N :: rest
    /\ Forall (fun c => space c = true) ws
    /\ (spells vizh kw \/ spells (codes "redirect") kw)
    /\ sp <> [] /\ Forall (fun c => space c = true) sp.
Proof. apply redirect_shape. Qed.

Lemma redirect_test_shape_witness :
  re_match redirect_re (codes "  #Redirect   [[Sofia]]") = true.
Proof.
  apply (proj2 (redirect_test_shape (codes "  #Redirect   [[Sofia]]"))).
  exists (codes "  "), (codes "Redirect"), (codes "   "), (codes "Sofia]]").
  split; [reflexivity|]. split; [repeat constructor|].
  split; [right; repeat constructor|]. split; [discriminate|repeat constructor].
Defined.

(** X14: a page whose oldest text has the brackets right after the
    keyword, as in "#REDIRECT[[Sofia]]", is not taken for a redirect:
    contributions to it pass the redirect filter. *)
Theorem redirect_needs_space (o : Options) (c : Contrib) (ws kw rest : text) :
  getOldVersion (page c) (oldest_revid (page c)) =
    ws ++ 0x23%N :: kw ++ 0x5B%N :: 0x5B%N :: rest ->
  Forall (fun k => space k = true) ws ->
  spells vizh kw \/ spells (codes "redirect") kw ->
  is_redirect o c = false
  /\ (is_excluded o c = false -> not_created o c = false -> passes o c = true).
Proof.
  intros E Hws Hkw.
  assert (R : is_redirect o c = false)
    by (unfold is_redirect; rewrite E, no_space_no_redirect by assumption;
        apply andb_false_r).
  split; [exact R|]. intros He Hc. apply passes_split. auto.
Qed.

Lemma redirect_needs_space_witness :
  spells (codes "redirect") (codes "REDIRECT")
  /\ step defaults empty_stats (edit tight_redirect 2020 5 1) =
     ({| years := {[ "2020" := 1%nat ]};
         months := {[ "2020 05" := 1%nat ]};
         weeks := {[ "2020 18" := 1%nat ]} |}, Next).
Proof.
  assert (Hk : spells (codes "redirect") (codes "REDIRECT"))
    by (repeat constructor).
  split; [exact Hk|].
  pose proof (proj2 (redirect_needs_space defaults
                       (edit tight_redirect 2020 5 1)
                       [] (codes "REDIRECT") (codes "Sofia]]")
                       eq_refl (List.Forall_nil _) (or_intror Hk))
                eq_refl eq_refl) as Hp.
  rewrite (step_no_cutoff defaults empty_stats _ Hp eq_refl eq_refl).
  reflexivity.
Defined.

(** X15: for a timestamp that is a date of the calendar, the week part
    of a key is the ISO week number, between 1 and 53, written on exactly
    two digits, and the month part is the month on exactly two digits;
    both read back as the number with [int]. *)
Theorem key_parts (c : Contrib) :
  valid_date (timestamp c) ->
  (1 <= iso_week (timestamp c) <= 53
   /\ String.length (week_of c) = 2%nat
   /\ all_digits (week_of c) = true
   /\ int (week_of c) = Val (iso_week (timestamp c)))
  /\ (String.length (month_of c) = 2%nat
      /\ all_digits (month_of c) = true
      /\ int (month_of c) = Val (month (timestamp c))).
Proof.
  intros Hv. pose proof (iso_week_bounds _ Hv) as Hw.
  destruct Hv as (_ & Hm & _). split.
  - split; [exact Hw|]. apply two_digits. lia.
  - apply two_digits. lia.
Qed.

Lemma key_parts_witness :
  valid_date (timestamp (edit plain 2021 1 3))
  /\ week_of (edit plain 2021 1 3) = "53"
  /\ month_of (edit plain 2021 1 3) = "01"
  /\ int (week_of (edit plain 2021 1 3)) = Val 53.
Proof.
  assert (Hv : valid_date (timestamp (edit plain 2021 1 3)))
    by (unfold valid_date; repeat split; vm_compute; discriminate).
  split; [exact Hv|]. split; [reflexivity|]. split; [reflexivity|].
  exact (proj2 (proj2 (proj2 (proj1 (key_parts (edit plain 2021 1 3) Hv))))).
Defined.

(** X16: a printed line of the table, the count, a space and the user
    name, determines both, also when the name has spaces or digits; so no
    two lines of a table are the same text. *)
Theorem printed_lines_distinct (wiki : Site) (asof since : Bound)
    (x : option (list string)) :
  (forall p q, printed_line p = printed_line q -> p = q)
  /\ List.NoDup (map printed_line (alltime wiki asof since x)).
Proof.
  split; [apply printed_line_inj|].
  apply Finite.Injective_map_NoDup; [exact printed_line_inj|].
  pose proof (active_users_wf wiki asof since x) as [Hnd _].
  assert (Hk : List.NoDup (map snd (alltime wiki asof since x))).
  { rewrite keys_alltime. unfold keys. eapply Permutation_NoDup; [|exact Hnd].
    apply Permutation_map. symmetry. apply sorted_desc_perm. }
  now apply NoDup_map_inv in Hk.
Qed.

Lemma printed_lines_distinct_witness :
  map printed_line (alltime club NoBound NoBound None) =
    ["5 Alice"; "5 Bob"; "2 Carol"]
  /\ printed_line (12%nat, "3 Musketeers") = "12 3 Musketeers"
  /\ (12%nat, "3 Musketeers") = (12%nat, "3 Musketeers").
Proof.
  split; [reflexivity|]. split; [reflexivity|].
  exact (proj1 (printed_lines_distinct club NoBound NoBound None)
           (12%nat, "3 Musketeers") (12%nat, "3 Musketeers") eq_refl).
Defined.
